(** * activeWindowMonitor: a shallow embedding of the monitor and its
    mouse sampler, with the properties of the check loop.

  Sources embedded here:
  - [src/MouseChecker.ts]  (module [MouseChecker])
  - [src/ActiveWindow.ts]  (module [ActiveWindow])
  - [ActiveWindowMonitor.ts] (the class [ActiveWindowMonitor]; everything
    from [Callback] on)

  JavaScript runs one task at a time.  The only suspension point of the
  monitor is the [await] in [check]; a call of [start], [stop] or [destroy],
  a timer callback, a 'mousemove' notification and the continuation of a
  settled query are therefore each one atomic transition of the [World].

  Subscribers are not part of the model: [emit] records the event and its
  payload in call order, and the only listeners that act on the world are
  the monitor's own ([awakeUser] on 'mousemove', and the one [run] registers
  with [once('check', ...)]).  Time is not modelled either: a pending timer
  may fire at any later transition. *)

From Stdlib Require Import ZArith List String Ascii Bool Lia.
Import ListNotations.

Local Open Scope Z_scope.

(** ** src/MouseChecker.ts *)

Module MouseChecker.

(** [Electron.Point] *)
Record Point := { x : Z; y : Z }.

(** The fields of the class, and the intervals that [setInterval] has
    created and [clearInterval] has not yet cleared. *)
Record t := {
  lastMousePos : option Point;
  mousePositionInterval : option nat;
  intervals : list nat;
  nextInterval : nat
}.

Definition create : t :=
  {| lastMousePos := None; mousePositionInterval := None;
     intervals := []; nextInterval := 0%nat |}.

(** [start()]: a new interval is created and its handle stored; a handle
    already stored is overwritten, not cleared. *)
Definition start (m : t) : t :=
  {| lastMousePos := lastMousePos m;
     mousePositionInterval := Some (nextInterval m);
     intervals := intervals m ++ [nextInterval m];
     nextInterval := S (nextInterval m) |}.

(** [stop()] *)
Definition stop (m : t) : t :=
  match mousePositionInterval m with
  | Some h =>
      {| lastMousePos := lastMousePos m;
         mousePositionInterval := None;
         intervals := filter (fun i => negb (Nat.eqb i h)) (intervals m);
         nextInterval := nextInterval m |}
  | None => m
  end.

(** The condition of the interval callback:
    [!this.lastMousePos ||
     (mousePos.x !== this.lastMousePos.x && mousePos.y !== this.lastMousePos.y)] *)
Definition moved (last : option Point) (mousePos : Point) : bool :=
  match last with
  | None => true
  | Some l => negb (x mousePos =? x l) && negb (y mousePos =? y l)
  end.

(** One run of the interval callback with the cursor at [mousePos]:
    the new state, and whether 'mousemove' was emitted. *)
Definition tick (mousePos : Point) (m : t) : t * bool :=
  if moved (lastMousePos m) mousePos then
    ({| lastMousePos := Some mousePos;
        mousePositionInterval := mousePositionInterval m;
        intervals := intervals m;
        nextInterval := nextInterval m |}, true)
  else (m, false).

(** The sampler is running when some interval is live. *)
Definition sampling (m : t) : bool :=
  match intervals m with [] => false | _ :: _ => true end.

(** What "the position has changed since the last retained sample" means:
    the two points are different points. *)
Definition position_changed (last : option Point) (mousePos : Point) : bool :=
  match last with
  | None => true
  | Some l => negb ((x mousePos =? x l) && (y mousePos =? y l))
  end.

End MouseChecker.

(** ** src/ActiveWindow.ts *)

Module ActiveApp.
(** [class ActiveApp implements BaseOwner]; the sentinel window has an owner
    with a name only, so the other two fields may be undefined. *)
Record t := {
  name : string;
  processId : option Z;
  path : option string
}.
End ActiveApp.

Module ActiveWindow.

Record Bounds := { x : Z; y : Z; width : Z; height : Z }.

(** [class ActiveWindow implements BaseResult].  [None] is JavaScript's
    [undefined]: [url] is optional in the class, and the sentinel built by
    [resetLastWindow] leaves [bounds], [memoryUsage] and [platform] unset.
    The numeric fields hold integers (window and process ids, pixels,
    bytes). *)
Record t := {
  title : string;
  id : Z;
  bounds : option Bounds;
  owner : ActiveApp.t;
  memoryUsage : option Z;
  url : option string;
  platform : option string
}.

(** [isMac(): return !!this.url]; the empty string is falsy. *)
Definition isMac (w : t) : bool :=
  match url w with
  | None => false
  | Some u => negb (String.eqb u EmptyString)
  end.

(** [url !== other.url] on [string | undefined]. *)
Definition url_differs (a b : option string) : bool :=
  match a, b with
  | None, None => false
  | Some u, Some v => negb (String.eqb u v)
  | _, _ => true
  end.

End ActiveWindow.

(** ** Rejection values and their serialisation

  A rejected query carries a value of any shape.  The monitor only stores
  it, hands it to 'error' listeners and serialises it with [stringify]
  (the package json-stringify-safe, which is [JSON.stringify] on values
  without cycles).  The monitor is therefore stated over any type of
  rejection values equipped with what the class uses. *)

Class RejectionValue (Err : Type) := {
  (** the object literal [{}], the initial value of [lastError] *)
  emptyObject : Err;
  (** the [TypeError] of reading a property of [undefined] *)
  typeError : Err;
  (** [stringify(v)]; [None] is [undefined] *)
  stringify : Err -> option string
}.

(** [a !== b] on [string | undefined]. *)
Definition serial_differs (a b : option string) : bool :=
  match a, b with
  | None, None => false
  | Some u, Some v => negb (String.eqb u v)
  | _, _ => true
  end.

(** A small universe of JavaScript values, enough to run the monitor on
  concrete rejections. *)
Module JS.

Inductive primitive :=
| Undefined
| Null
| Bool (b : bool)
| Str (s : string).

(** A primitive, an object with primitive properties (in insertion order),
  or an instance of [Error]. *)
Inductive value :=
| Prim (p : primitive)
| Obj (props : list (string * primitive))
| ErrorObject (message : string).

Definition hex_digit (n : nat) : ascii :=
  nth n ["0"; "1"; "2"; "3"; "4"; "5"; "6"; "7"; "8"; "9";
         "a"; "b"; "c"; "d"; "e"; "f"]%char "0"%char.

(** The escape of one character inside a JSON string: the quote and the
    backslash get a backslash, the control characters below U+0020 their
    short form or [\u00xx]; every other byte is copied. *)
Definition escape (c : ascii) : string :=
  let backslash := "092"%char in
  let n := nat_of_ascii c in
  if Nat.eqb n 34 then String backslash (String c EmptyString)
  else if Nat.eqb n 92 then String backslash (String backslash EmptyString)
  else if Nat.eqb n 8 then String backslash "b"
  else if Nat.eqb n 9 then String backslash "t"
  else if Nat.eqb n 10 then String backslash "n"
  else if Nat.eqb n 12 then String backslash "f"
  else if Nat.eqb n 13 then String backslash "r"
  else if Nat.ltb n 32 then
    String backslash
      ("u00" ++ String (hex_digit (Nat.div n 16))
                  (String (hex_digit (Nat.modulo n 16)) EmptyString))
  else String c EmptyString.

Fixpoint escaped (s : string) : string :=
  match s with
  | EmptyString => EmptyString
  | String c r => escape c ++ escaped r
  end.

Definition quote (s : string) : string :=
  String "034"%char (escaped s ++ String "034"%char EmptyString).

Fixpoint join (l : list string) : string :=
  match l with
  | [] => EmptyString
  | [a] => a
  | a :: r => a ++ "," ++ join r
  end.

Definition stringify_primitive (p : primitive) : option string :=
  match p with
  | Undefined => None
  | Null => Some "null"%string
  | Bool true => Some "true"%string
  | Bool false => Some "false"%string
  | Str s => Some (quote s)
  end.

Fixpoint members (ps : list (string * primitive)) : list string :=
  match ps with
  | [] => []
  | (k, p) :: r =>
      match stringify_primitive p with
      | Some s => (quote k ++ ":" ++ s)%string :: members r
      | None => members r
      end
  end.

(** [JSON.stringify] on this universe; a string is its sequence of UTF-8
  bytes, which [JSON.stringify] copies outside ASCII.  [undefined] has no
  serialisation, a property whose value is [undefined] is skipped, and an
  [Error] instance has no enumerable property of its own. *)
Definition stringify (v : value) : option string :=
  match v with
  | Prim p => stringify_primitive p
  | Obj props => Some ("{" ++ join (members props) ++ "}")%string
  | ErrorObject _ => Some "{}"%string
  end.

End JS.

#[export] Instance JS_RejectionValue : RejectionValue JS.value := {
  emptyObject := JS.Obj [];
  typeError := JS.ErrorObject "Cannot read properties of undefined";
  stringify := JS.stringify
}.

(** ** ActiveWindowMonitor.ts *)

(** The two functions the monitor hands to [setTimeout]. *)
Inductive Callback := Run | IdleUser.

(** A pending single-shot timer: the handle [setTimeout] returned, the
    callback and the delay in milliseconds. *)
Record Timer := { handle : nat; callback : Callback; delay : Z }.

(** [static START = 'start'; static STOP = 'stop'] *)
Inductive Lifecycle := START | STOP.

Definition is_START (s : option Lifecycle) : bool :=
  match s with Some START => true | _ => false end.

Section Monitor.

Context {Err : Type} {RV : RejectionValue Err}.

(** The events of [ActiveWindowEvent], with their payloads. *)
Inductive Event :=
| EvStart
| EvStop
| EvCheck
| EvWindowChange (win : ActiveWindow.t)
| EvWindowOrUrlChange (win : ActiveWindow.t)
| EvWindowInactive (message : string)
| EvIdle
| EvAwake
| EvError (error : Err).

(** The fields of the class.  A field without initialiser is [undefined]
    until first assigned: [None] for [currentState], [lastWindow] and the two
    timer handles.  [isUserAwake] is [true], [false], or [null]/[undefined];
    the class only ever tests it with [!x] and [x === false], which do not
    tell [null] from [undefined], so both are [None]. *)
Record Monitor := {
  checkInterval : Z;
  idleAfter : Z;
  currentState : option Lifecycle;
  lastWindow : option ActiveWindow.t;
  isUserAwake : option bool;
  checkTimeout : option nat;
  idleTimeout : option nat;
  lastError : Err
}.

(** The monitor together with what it acts upon: its mouse checker and
    whether [awakeUser] is subscribed to it, the listeners that [run]
    registered with [once('check', ...)], the window queries that have not
    settled, the pending timers, and every [emit] made so far. *)
Record World := {
  monitor : Monitor;
  mouseChecker : MouseChecker.t;
  mousemoveListener : bool;
  onceCheck : nat;
  outstanding : nat;
  timers : list Timer;
  nextHandle : nat;
  emitted : list Event
}.

Definition set_currentState (v : option Lifecycle) (m : Monitor) : Monitor :=
  {| checkInterval := checkInterval m; idleAfter := idleAfter m;
     currentState := v; lastWindow := lastWindow m;
     isUserAwake := isUserAwake m; checkTimeout := checkTimeout m;
     idleTimeout := idleTimeout m; lastError := lastError m |}.

Definition set_lastWindow (v : option ActiveWindow.t) (m : Monitor) : Monitor :=
  {| checkInterval := checkInterval m; idleAfter := idleAfter m;
     currentState := currentState m; lastWindow := v;
     isUserAwake := isUserAwake m; checkTimeout := checkTimeout m;
     idleTimeout := idleTimeout m; lastError := lastError m |}.

Definition set_isUserAwake (v : option bool) (m : Monitor) : Monitor :=
  {| checkInterval := checkInterval m; idleAfter := idleAfter m;
     currentState := currentState m; lastWindow := lastWindow m;
     isUserAwake := v; checkTimeout := checkTimeout m;
     idleTimeout := idleTimeout m; lastError := lastError m |}.

Definition set_checkTimeout (v : option nat) (m : Monitor) : Monitor :=
  {| checkInterval := checkInterval m; idleAfter := idleAfter m;
     currentState := currentState m; lastWindow := lastWindow m;
     isUserAwake := isUserAwake m; checkTimeout := v;
     idleTimeout := idleTimeout m; lastError := lastError m |}.

Definition set_idleTimeout (v : option nat) (m : Monitor) : Monitor :=
  {| checkInterval := checkInterval m; idleAfter := idleAfter m;
     currentState := currentState m; lastWindow := lastWindow m;
     isUserAwake := isUserAwake m; checkTimeout := checkTimeout m;
     idleTimeout := v; lastError := lastError m |}.

Definition set_lastError (v : Err) (m : Monitor) : Monitor :=
  {| checkInterval := checkInterval m; idleAfter := idleAfter m;
     currentState := currentState m; lastWindow := lastWindow m;
     isUserAwake := isUserAwake m; checkTimeout := checkTimeout m;
     idleTimeout := idleTimeout m; lastError := v |}.

(** [this.f = ...]: an update of the monitor's fields inside the world. *)
Definition this (f : Monitor -> Monitor) (w : World) : World :=
  {| monitor := f (monitor w); mouseChecker := mouseChecker w;
     mousemoveListener := mousemoveListener w; onceCheck := onceCheck w;
     outstanding := outstanding w; timers := timers w;
     nextHandle := nextHandle w; emitted := emitted w |}.

Definition with_mouseChecker (f : MouseChecker.t -> MouseChecker.t) (w : World) : World :=
  {| monitor := monitor w; mouseChecker := f (mouseChecker w);
     mousemoveListener := mousemoveListener w; onceCheck := onceCheck w;
     outstanding := outstanding w; timers := timers w;
     nextHandle := nextHandle w; emitted := emitted w |}.

Definition set_onceCheck (n : nat) (w : World) : World :=
  {| monitor := monitor w; mouseChecker := mouseChecker w;
     mousemoveListener := mousemoveListener w; onceCheck := n;
     outstanding := outstanding w; timers := timers w;
     nextHandle := nextHandle w; emitted := emitted w |}.

Definition set_outstanding (n : nat) (w : World) : World :=
  {| monitor := monitor w; mouseChecker := mouseChecker w;
     mousemoveListener := mousemoveListener w; onceCheck := onceCheck w;
     outstanding := n; timers := timers w;
     nextHandle := nextHandle w; emitted := emitted w |}.

Definition set_timers (ts : list Timer) (w : World) : World :=
  {| monitor := monitor w; mouseChecker := mouseChecker w;
     mousemoveListener := mousemoveListener w; onceCheck := onceCheck w;
     outstanding := outstanding w; timers := ts;
     nextHandle := nextHandle w; emitted := emitted w |}.

(** [emit(event, payload)]: recorded in call order. *)
Definition emit (e : Event) (w : World) : World :=
  {| monitor := monitor w; mouseChecker := mouseChecker w;
     mousemoveListener := mousemoveListener w; onceCheck := onceCheck w;
     outstanding := outstanding w; timers := timers w;
     nextHandle := nextHandle w; emitted := emitted w ++ [e] |}.

(** [setTimeout(cb, d)]: a fresh handle, and the timer pending. *)
Definition setTimeout (cb : Callback) (d : Z) (w : World) : nat * World :=
  (nextHandle w,
   {| monitor := monitor w; mouseChecker := mouseChecker w;
      mousemoveListener := mousemoveListener w; onceCheck := onceCheck w;
      outstanding := outstanding w;
      timers := timers w ++ [{| handle := nextHandle w; callback := cb; delay := d |}];
      nextHandle := S (nextHandle w); emitted := emitted w |}).

Definition other_handle (h : nat) (t : Timer) : bool := negb (Nat.eqb (handle t) h).

(** [clearTimeout(h)]: nothing happens for [undefined] or for the handle of
    a timer that has fired or was cleared before. *)
Definition clearTimeout (h : option nat) (w : World) : World :=
  match h with
  | None => w
  | Some n => set_timers (filter (other_handle n) (timers w)) w
  end.

(** [new ActiveWindowMonitor(services, checkInterval, idleAfter)]: the
    constructor subscribes [awakeUser] to 'mousemove'; [lastError = {}]. *)
Definition create (mc : MouseChecker.t) (ci ia : Z) : World :=
  {| monitor :=
       {| checkInterval := ci; idleAfter := ia; currentState := None;
          lastWindow := None; isUserAwake := None; checkTimeout := None;
          idleTimeout := None; lastError := emptyObject |};
     mouseChecker := mc; mousemoveListener := true; onceCheck := 0%nat;
     outstanding := 0%nat; timers := []; nextHandle := 0%nat; emitted := [] |}.

(** The value [resetLastWindow] assigns:
    [Object.assign(new ActiveWindow(),
       { id: -1, title: '', url: undefined, owner: { name: '' } })] *)
Definition sentinel : ActiveWindow.t :=
  {| ActiveWindow.title := EmptyString;
     ActiveWindow.id := -1;
     ActiveWindow.bounds := None;
     ActiveWindow.owner :=
       {| ActiveApp.name := EmptyString; ActiveApp.processId := None;
          ActiveApp.path := None |};
     ActiveWindow.memoryUsage := None;
     ActiveWindow.url := None;
     ActiveWindow.platform := None |}.

Definition resetLastWindow (w : World) : World :=
  this (set_lastWindow (Some sentinel)) w.

Definition setDefaults (w : World) : World :=
  let w1 := this (set_currentState (Some START)) w in
  let w2 := this (set_isUserAwake None) w1 in
  let w3 := resetLastWindow w2 in
  clearTimeout (checkTimeout (monitor w3)) w3.

(** The listener [run] registers with [once('check', ...)]:
    [this.checkTimeout = setTimeout(this.run, this.checkInterval)]. *)
Definition arm_next_run (w : World) : World :=
  let (h, w1) := setTimeout Run (checkInterval (monitor w)) w in
  this (set_checkTimeout (Some h)) w1.

Fixpoint call_listeners (n : nat) (w : World) : World :=
  match n with
  | O => w
  | S k => call_listeners k (arm_next_run w)
  end.

(** [this.emit('check')]: every listener registered with [once] is called
    and is removed. *)
Definition emit_check (w : World) : World :=
  call_listeners (onceCheck w) (set_onceCheck 0%nat (emit EvCheck w)).

(** [activeWindow.id !== this.lastWindow.id] *)
Definition activeWindowChanged (activeWindow lastWin : ActiveWindow.t) : bool :=
  negb (ActiveWindow.id activeWindow =? ActiveWindow.id lastWin).

Definition activeWindowOrUrlChanged (activeWindow lastWin : ActiveWindow.t) : bool :=
  let urlChanged :=
    ActiveWindow.url_differs (ActiveWindow.url activeWindow) (ActiveWindow.url lastWin) in
  let windowChanged :=
    negb (ActiveWindow.id activeWindow =? ActiveWindow.id lastWin) in
  urlChanged || windowChanged.

(** [check()] up to its [await]: the window query is issued. *)
Definition check_issue (w : World) : World :=
  set_outstanding (S (outstanding w)) w.

(** The [catch] block of [check()]. *)
Definition check_catch (error : Err) (w : World) : World :=
  let w1 := setDefaults w in
  let w2 := emit_check w1 in
  if serial_differs (stringify error) (stringify (lastError (monitor w2))) then
    emit (EvError error) (this (set_lastError error) w2)
  else w2.

(** [check()] after its [await], when the query resolved with
    [activeWinResult].  Reading [this.lastWindow.url] while [lastWindow] is
    [undefined] throws inside the [try] block. *)
Definition check_then (activeWinResult : option ActiveWindow.t) (w : World) : World :=
  let w1 := emit_check w in
  match isUserAwake (monitor w1) with
  | Some true =>
      let w2 := this (set_isUserAwake None) w1 in
      match activeWinResult with
      | None =>
          emit (EvWindowInactive "Active window not detected.") (resetLastWindow w2)
      | Some activeWindow =>
          match lastWindow (monitor w2) with
          | None => check_catch typeError w2
          | Some lastWin =>
              let w3 :=
                if activeWindowOrUrlChanged activeWindow lastWin then
                  let w4 := emit (EvWindowOrUrlChange activeWindow) w2 in
                  let w5 :=
                    if activeWindowChanged activeWindow lastWin
                    then emit (EvWindowChange activeWindow) w4
                    else w4 in
                  this (set_lastWindow (Some activeWindow)) w5
                else w2 in
              this (set_lastError emptyObject) w3
          end
      end
  | _ => w1
  end.

Definition run (w : World) : World :=
  if is_START (currentState (monitor w)) then
    check_issue (set_onceCheck (S (onceCheck w)) w)
  else w.

Definition start (w : World) : World :=
  let w1 := setDefaults w in
  let w2 := with_mouseChecker MouseChecker.start w1 in
  let w3 := run w2 in
  emit EvStart w3.

Definition stop (w : World) : World :=
  let w1 := this (set_currentState (Some STOP)) w in
  let w2 := clearTimeout (checkTimeout (monitor w1)) w1 in
  let w3 := clearTimeout (idleTimeout (monitor w2)) w2 in
  let w4 := with_mouseChecker MouseChecker.stop w3 in
  emit EvStop w4.

(** [destroy()]: [removeAllListeners()] on the mouse checker and on the
    monitor itself, whose listeners include those [run] registered. *)
Definition destroy (w : World) : World :=
  {| monitor := monitor w; mouseChecker := mouseChecker w;
     mousemoveListener := false; onceCheck := 0%nat;
     outstanding := outstanding w; timers := timers w;
     nextHandle := nextHandle w; emitted := emitted w |}.

Definition awakeUser (w : World) : World :=
  match isUserAwake (monitor w) with
  | Some true => w
  | flag =>
      let w1 := match flag with Some false => emit EvAwake w | _ => w end in
      let w2 := this (set_isUserAwake (Some true)) w1 in
      let w3 := clearTimeout (idleTimeout (monitor w2)) w2 in
      let (h, w4) := setTimeout IdleUser (idleAfter (monitor w3)) w3 in
      this (set_idleTimeout (Some h)) w4
  end.

Definition idleUser (w : World) : World :=
  let w1 := this (set_isUserAwake (Some false)) w in
  let w2 := resetLastWindow w1 in
  if is_START (currentState (monitor w2)) then emit EvIdle w2 else w2.

(** *** The transitions *)

Inductive Input :=
| CallStart
| CallStop
| CallDestroy
| MouseMove                                   (* the mouse checker emits 'mousemove' *)
| MouseSample (mousePos : MouseChecker.Point) (* an interval of [MouseChecker] ticks *)
| TimerFires (h : nat)
| QueryResolves (activeWinResult : option ActiveWindow.t)
| QueryRejects (error : Err).

Definition deliver_mousemove (w : World) : World :=
  if mousemoveListener w then awakeUser w else w.

Definition call (cb : Callback) (w : World) : World :=
  match cb with
  | Run => run w
  | IdleUser => idleUser w
  end.

Definition has_handle (h : nat) (t : Timer) : bool := Nat.eqb (handle t) h.

(** One transition; [None] when the input cannot occur in [w]: a timer that
    is not pending, a settlement with no query outstanding, a sample with no
    interval running. *)
Definition step (w : World) (i : Input) : option World :=
  match i with
  | CallStart => Some (start w)
  | CallStop => Some (stop w)
  | CallDestroy => Some (destroy w)
  | MouseMove => Some (deliver_mousemove w)
  | MouseSample mousePos =>
      if MouseChecker.sampling (mouseChecker w) then
        let (mc, moved) := MouseChecker.tick mousePos (mouseChecker w) in
        let w1 := with_mouseChecker (fun _ => mc) w in
        Some (if moved then deliver_mousemove w1 else w1)
      else None
  | TimerFires h =>
      match find (has_handle h) (timers w) with
      | Some t => Some (call (callback t) (clearTimeout (Some h) w))
      | None => None
      end
  | QueryResolves r =>
      match outstanding w with
      | O => None
      | S n => Some (check_then r (set_outstanding n w))
      end
  | QueryRejects e =>
      match outstanding w with
      | O => None
      | S n => Some (check_catch e (set_outstanding n w))
      end
  end.

Fixpoint exec (w : World) (inputs : list Input) : option World :=
  match inputs with
  | [] => Some w
  | i :: rest =>
      match step w i with
      | Some w' => exec w' rest
      | None => None
      end
  end.

(** The pending timers of the check loop. *)
Definition run_timers (w : World) : list Timer :=
  filter (fun t => match callback t with Run => true | IdleUser => false end) (timers w).

(** [start()] is called only while no window query is outstanding, at
    every point of the run of [inputs] from [w]; the run itself is defined. *)
Definition start_settled (w : World) (i : Input) : bool :=
  match i with
  | CallStart => Nat.eqb (outstanding w) 0
  | _ => true
  end.

Fixpoint starts_when_settled (w : World) (inputs : list Input) : bool :=
  match inputs with
  | [] => true
  | i :: rest =>
      start_settled w i &&
      match step w i with
      | Some w' => starts_when_settled w' rest
      | None => false
      end
  end.

Definition is_CallStart (i : Input) : bool :=
  match i with CallStart => true | _ => false end.

(** The check loop holds at most one token: an outstanding query or a
    pending [run] timer, and that timer is the one [checkTimeout] names. *)
Definition loop_inv (w : World) : Prop :=
  (outstanding w + List.length (run_timers w) <= 1)%nat /\
  (onceCheck w <= outstanding w)%nat /\
  Forall (fun t => checkTimeout (monitor w) = Some (handle t)) (run_timers w).

(** The timer the 'check' listener arms when [nextHandle] is [h]. *)
Definition next_run_timer (h : nat) (w : World) : Timer :=
  {| handle := h; callback := Run; delay := checkInterval (monitor w) |}.

(** The check loop has ended: no query is outstanding and no [run] timer
    is pending. *)
Definition loop_ended (w : World) : Prop :=
  outstanding w = 0%nat /\ run_timers w = [].

End Monitor.

Arguments Event Err : clear implicits.
Arguments Monitor Err : clear implicits.
Arguments World Err : clear implicits.
Arguments Input Err : clear implicits.

(** ** Concrete inputs used to run the model *)

Definition monitor0 : World JS.value := create MouseChecker.create 100 1000.

Definition window (i : Z) (u : option string) : ActiveWindow.t :=
  {| ActiveWindow.title := "t";
     ActiveWindow.id := i;
     ActiveWindow.bounds := None;
     ActiveWindow.owner :=
       {| ActiveApp.name := "app"; ActiveApp.processId := Some 7;
          ActiveApp.path := None |};
     ActiveWindow.memoryUsage := None;
     ActiveWindow.url := u;
     ActiveWindow.platform := Some "macos"%string |}.

Definition E1 : JS.value := JS.Prim (JS.Str "E1").

Definition winA : ActiveWindow.t := window 1 (Some "u"%string).

Definition run_timer (h : nat) : Timer :=
  {| handle := h; callback := Run; delay := 100 |}.
Definition idle_timer (h : nat) : Timer :=
  {| handle := h; callback := IdleUser; delay := 1000 |}.

(** The world reached from a fresh monitor by [inputs]. *)
Definition after (inputs : list (Input JS.value)) : World JS.value :=
  match exec monitor0 inputs with
  | Some w => w
  | None => monitor0
  end.

(** Started, first query outstanding, gate neutral. *)
Definition started : World JS.value := Eval vm_compute in after [CallStart].
(** The same after a 'mousemove': gate Awake. *)
Definition started_awake : World JS.value :=
  Eval vm_compute in after [CallStart; MouseMove].
(** Between two iterations: the check timer (handle 0) is pending. *)
Definition between_checks : World JS.value :=
  Eval vm_compute in after [CallStart; QueryResolves None].
(** After one reported window, with the idle timer (0) and the check timer
    (1) pending. *)
Definition reported : World JS.value :=
  Eval vm_compute in after [CallStart; MouseMove; QueryResolves (Some winA)].

Definition disciplined_run : list (Input JS.value) :=
  [CallStart; MouseMove; QueryResolves (Some winA); TimerFires 1%nat; CallStop;
   QueryResolves None; CallStart; QueryRejects E1].

(** *** Further worlds and inputs *)

(** The window [winA] under another title. *)
Definition winA_retitled : ActiveWindow.t :=
  {| ActiveWindow.title := "another title";
     ActiveWindow.id := 1;
     ActiveWindow.bounds := None;
     ActiveWindow.owner :=
       {| ActiveApp.name := "app"; ActiveApp.processId := Some 7;
          ActiveApp.path := None |};
     ActiveWindow.memoryUsage := None;
     ActiveWindow.url := Some "u"%string;
     ActiveWindow.platform := Some "macos"%string |}.

(** The next query issued after [reported]. *)
Definition reported_next : World JS.value :=
  Eval vm_compute in
    after [CallStart; MouseMove; QueryResolves (Some winA); TimerFires 1%nat].
(** The same after another 'mousemove'. *)
Definition reported_next_awake : World JS.value :=
  Eval vm_compute in
    after [CallStart; MouseMove; QueryResolves (Some winA); TimerFires 1%nat; MouseMove].
(** After a first rejection with E1, and with the next query issued. *)
Definition rejected : World JS.value :=
  Eval vm_compute in after [CallStart; QueryRejects E1].
Definition rejected_next : World JS.value :=
  Eval vm_compute in after [CallStart; QueryRejects E1; TimerFires 0%nat].


(** The world at the end of [disciplined_run]. *)
Definition disciplined_end : World JS.value :=
  Eval vm_compute in after disciplined_run.

Definition after_stop_inputs : list (Input JS.value) :=
  [MouseMove; TimerFires 1%nat; MouseMove; CallStop; CallDestroy].

Definition destroyed_midflight_inputs : list (Input JS.value) :=
  [MouseMove; CallStop; CallDestroy; MouseMove].

Definition after_destroy_inputs : list (Input JS.value) :=
  [QueryResolves None; CallStart; MouseMove; QueryResolves (Some winA);
   TimerFires 0%nat].

Definition line_positions : list MouseChecker.Point :=
  [ {| MouseChecker.x := 5; MouseChecker.y := 0 |};
    {| MouseChecker.x := 0; MouseChecker.y := 7 |};
    {| MouseChecker.x := -3; MouseChecker.y := 0 |} ].

(** The mouse checker: two cursor positions on one horizontal line. *)
Definition origin : MouseChecker.Point := {| MouseChecker.x := 0; MouseChecker.y := 0 |}.
Definition right_of_origin : MouseChecker.Point :=
  {| MouseChecker.x := 5; MouseChecker.y := 0 |}.

(** The checker after [start()] and a first tick with the cursor at the
    origin. *)
Definition sampled_at_origin : MouseChecker.t :=
  fst (MouseChecker.tick origin (MouseChecker.start MouseChecker.create)).

(** ** Observations on runs of the monitor *)

Section Observations.

Context {Err : Type} {RV : RejectionValue Err}.

Definition idle_timers (w : World Err) : list Timer :=
  filter (fun t => match callback t with IdleUser => true | Run => false end) (timers w).

Definition is_settlement (i : Input Err) : bool :=
  match i with
  | QueryResolves _ | QueryRejects _ => true
  | _ => false
  end.

Definition is_mouse (i : Input Err) : bool :=
  match i with
  | MouseMove | MouseSample _ => true
  | _ => false
  end.

Definition is_CallDestroy (i : Input Err) : bool :=
  match i with CallDestroy => true | _ => false end.

(** 'stop' and 'awake', the two events a monitor at rest can still emit. *)
Definition stop_or_awake (e : Event Err) : bool :=
  match e with
  | EvStop | EvAwake => true
  | _ => false
  end.

(** What one resolved query may emit after 'check'. *)
Definition resolution_events (r : option ActiveWindow.t) (evs : list (Event Err)) : Prop :=
  evs = [] \/
  (r = None /\ evs = [EvWindowInactive "Active window not detected."]) \/
  (exists win, r = Some win /\
     (evs = [EvWindowOrUrlChange win] \/
      evs = [EvWindowOrUrlChange win; EvWindowChange win])).

(** [lastWindow] has been assigned whenever it can be read: while a query
    is outstanding or the monitor is RUNNING. *)
Definition lastWindow_assigned (w : World Err) : Prop :=
  lastWindow (monitor w) = None ->
  outstanding w = 0%nat /\ is_START (currentState (monitor w)) = false.

(** At most one idle timer is pending, the one [idleTimeout] names. *)
Definition idle_inv (w : World Err) : Prop :=
  (List.length (idle_timers w) <= 1)%nat /\
  Forall (fun t => idleTimeout (monitor w) = Some (handle t)) (idle_timers w).

(** Handles are handed out in increasing order: every pending timer and the
    stored idle handle are below [nextHandle], timers with one handle have
    one callback, and [idleTimeout] names no timer of the check loop. *)
Definition handles_inv (w : World Err) : Prop :=
  Forall (fun t => (handle t < nextHandle w)%nat) (timers w) /\
  (forall h, idleTimeout (monitor w) = Some h -> (h < nextHandle w)%nat) /\
  (forall t1 t2, In t1 (timers w) -> In t2 (timers w) ->
                 handle t1 = handle t2 -> callback t1 = callback t2) /\
  (forall t, In t (timers w) -> idleTimeout (monitor w) = Some (handle t) ->
             callback t = IdleUser).

(** The check loop of a RUNNING monitor holds exactly one token, and the
    listener that arms the next timer is registered exactly while the query
    is outstanding. *)
Definition alive_inv (w : World Err) : Prop :=
  loop_inv w /\
  onceCheck w = outstanding w /\
  (is_START (currentState (monitor w)) = true ->
   (outstanding w + List.length (run_timers w) = 1)%nat).

(** [w'] has the idle timers of [w], or fewer, and the same [idleTimeout]. *)
Definition idle_kept (w w' : World Err) : Prop :=
  (exists f, idle_timers w' = filter f (idle_timers w)) /\
  idleTimeout (monitor w') = idleTimeout (monitor w).

(** [w'] has the timers of [w], or fewer, and armed none. *)
Definition timers_kept (w w' : World Err) : Prop :=
  (exists f, timers w' = filter f (timers w)) /\
  nextHandle w' = nextHandle w /\
  idleTimeout (monitor w') = idleTimeout (monitor w).

(** A query outstanding or a timer of the check loop pending. *)
Definition token (w : World Err) : Prop := (0 < outstanding w)%nat \/ run_timers w <> [].






End Observations.

(** ** The mouse checker over several ticks *)

(** Every live interval was handed out by [setInterval] before. *)
Definition sampler_wf (m : MouseChecker.t) : Prop :=
  Forall (fun i => (i < MouseChecker.nextInterval m)%nat) (MouseChecker.intervals m).

(** Successive runs of the interval callback, the cursor being at the
    given positions in turn: the final state and the number of 'mousemove'
    emissions. *)
Fixpoint ticks (positions : list MouseChecker.Point) (m : MouseChecker.t)
  : MouseChecker.t * nat :=
  match positions with
  | [] => (m, 0%nat)
  | mousePos :: rest =>
      let (m1, emitted1) := MouseChecker.tick mousePos m in
      let (m2, k) := ticks rest m1 in
      (m2, ((if emitted1 then 1 else 0) + k)%nat)
  end.

(** * Properties *)

Section Properties.

Context {Err : Type} {RV : RejectionValue Err}.

Implicit Types (w : World Err) (m : Monitor Err).

(** *** What [emit('check')] does to each part of the world *)

Lemma call_listeners_emitted n w :
  emitted (call_listeners n w) = emitted w.
Proof. revert w; induction n as [|n IH]; intro w; simpl; [reflexivity|]. now rewrite IH. Qed.

Lemma call_listeners_outstanding n w :
  outstanding (call_listeners n w) = outstanding w.
Proof. revert w; induction n as [|n IH]; intro w; simpl; [reflexivity|]. now rewrite IH. Qed.

Lemma call_listeners_onceCheck n w :
  onceCheck (call_listeners n w) = onceCheck w.
Proof. revert w; induction n as [|n IH]; intro w; simpl; [reflexivity|]. now rewrite IH. Qed.

Lemma call_listeners_mouse n w :
  mouseChecker (call_listeners n w) = mouseChecker w /\
  mousemoveListener (call_listeners n w) = mousemoveListener w.
Proof. revert w; induction n as [|n IH]; intro w; simpl; [now split|]. now rewrite !(proj1 (IH _)), !(proj2 (IH _)). Qed.

Lemma call_listeners_nextHandle n w :
  nextHandle (call_listeners n w) = (nextHandle w + n)%nat.
Proof.
  revert w; induction n as [|n IH]; intro w; simpl; [lia|].
  rewrite IH. simpl. lia.
Qed.

(** Only [checkTimeout] is assigned by the listeners. *)
Lemma call_listeners_fields n w :
  let m' := monitor (call_listeners n w) in
  currentState m' = currentState (monitor w) /\
  lastWindow m' = lastWindow (monitor w) /\
  isUserAwake m' = isUserAwake (monitor w) /\
  idleTimeout m' = idleTimeout (monitor w) /\
  lastError m' = lastError (monitor w) /\
  checkInterval m' = checkInterval (monitor w) /\
  idleAfter m' = idleAfter (monitor w).
Proof.
  revert w; induction n as [|n IH]; intro w; simpl; [repeat split|].
  destruct (IH (arm_next_run w)) as (H1 & H2 & H3 & H4 & H5 & H6 & H7).
  simpl in *. rewrite H1, H2, H3, H4, H5, H6, H7. repeat split.
Qed.

Lemma call_listeners_none w : call_listeners 0 w = w.
Proof. reflexivity. Qed.

Lemma emit_check_emitted w : emitted (emit_check w) = emitted w ++ [EvCheck].
Proof. unfold emit_check. now rewrite call_listeners_emitted. Qed.

Lemma emit_check_outstanding w : outstanding (emit_check w) = outstanding w.
Proof. unfold emit_check. now rewrite call_listeners_outstanding. Qed.

Lemma emit_check_onceCheck w : onceCheck (emit_check w) = 0%nat.
Proof. unfold emit_check. now rewrite call_listeners_onceCheck. Qed.

Lemma emit_check_nextHandle w :
  nextHandle (emit_check w) = (nextHandle w + onceCheck w)%nat.
Proof. unfold emit_check. now rewrite call_listeners_nextHandle. Qed.

Lemma emit_check_fields w :
  let m' := monitor (emit_check w) in
  currentState m' = currentState (monitor w) /\
  lastWindow m' = lastWindow (monitor w) /\
  isUserAwake m' = isUserAwake (monitor w) /\
  idleTimeout m' = idleTimeout (monitor w) /\
  lastError m' = lastError (monitor w) /\
  checkInterval m' = checkInterval (monitor w) /\
  idleAfter m' = idleAfter (monitor w).
Proof.
  exact (call_listeners_fields (onceCheck w) (set_onceCheck 0%nat (emit EvCheck w))).
Qed.

(** With no listener registered, [emit('check')] is only recorded. *)
Lemma emit_check_no_listener w :
  onceCheck w = 0%nat -> emit_check w = emit EvCheck w.
Proof.
  intro H. unfold emit_check. rewrite H. simpl.
  destruct w; simpl in *; subst; reflexivity.
Qed.

(** The [catch] block: what it emits and what it remembers. *)
Lemma check_catch_emitted e w :
  emitted (check_catch e w) =
  emitted w ++ EvCheck ::
    (if serial_differs (stringify e) (stringify (lastError (monitor w)))
     then [EvError e] else []).
Proof.
  unfold check_catch.
  pose proof (emit_check_fields (setDefaults w)) as (_ & _ & _ & _ & HE & _).
  simpl in HE. rewrite HE.
  assert (HL : lastError (monitor (setDefaults w)) = lastError (monitor w)).
  { unfold setDefaults. destruct (checkTimeout _); reflexivity. }
  rewrite HL.
  assert (HS : emitted (setDefaults w) = emitted w).
  { unfold setDefaults. destruct (checkTimeout _); reflexivity. }
  destruct (serial_differs _ _); simpl;
    rewrite emit_check_emitted, HS; [rewrite <- app_assoc|]; reflexivity.
Qed.

Lemma check_catch_lastError e w :
  lastError (monitor (check_catch e w)) =
  if serial_differs (stringify e) (stringify (lastError (monitor w)))
  then e else lastError (monitor w).
Proof.
  unfold check_catch.
  pose proof (emit_check_fields (setDefaults w)) as (_ & _ & _ & _ & HE & _).
  simpl in HE. rewrite HE.
  assert (HL : lastError (monitor (setDefaults w)) = lastError (monitor w)).
  { unfold setDefaults. destruct (checkTimeout _); reflexivity. }
  rewrite HL.
  destruct (serial_differs _ _); simpl; [reflexivity|]. now rewrite HE.
Qed.

Lemma url_differs_spec (a b : option string) :
  ActiveWindow.url_differs a b = true <-> a <> b.
Proof.
  destruct a as [u|], b as [v|]; simpl; split; try congruence; try discriminate.
  - rewrite negb_true_iff. intros H E. injection E as ->.
    now rewrite String.eqb_refl in H.
  - intro H. rewrite negb_true_iff. apply String.eqb_neq. congruence.
Qed.

Lemma activeWindowChanged_spec a b :
  activeWindowChanged a b = true <-> ActiveWindow.id a <> ActiveWindow.id b.
Proof.
  unfold activeWindowChanged. rewrite negb_true_iff, Z.eqb_neq. reflexivity.
Qed.

Lemma activeWindowOrUrlChanged_spec a b :
  activeWindowOrUrlChanged a b = true <->
  (ActiveWindow.url a <> ActiveWindow.url b \/ ActiveWindow.id a <> ActiveWindow.id b).
Proof.
  unfold activeWindowOrUrlChanged.
  rewrite orb_true_iff, url_differs_spec, negb_true_iff, Z.eqb_neq. reflexivity.
Qed.

Lemma serial_differs_spec (a b : option string) :
  serial_differs a b = true <-> a <> b.
Proof. exact (url_differs_spec a b). Qed.

Lemma setDefaults_fields w :
  let w' := setDefaults w in
  currentState (monitor w') = Some START /\
  isUserAwake (monitor w') = None /\
  lastWindow (monitor w') = Some sentinel /\
  lastError (monitor w') = lastError (monitor w) /\
  checkTimeout (monitor w') = checkTimeout (monitor w) /\
  idleTimeout (monitor w') = idleTimeout (monitor w) /\
  timers w' = timers (clearTimeout (checkTimeout (monitor w)) w) /\
  nextHandle w' = nextHandle w /\
  emitted w' = emitted w /\
  outstanding w' = outstanding w /\
  onceCheck w' = onceCheck w /\
  mouseChecker w' = mouseChecker w /\
  mousemoveListener w' = mousemoveListener w.
Proof.
  unfold setDefaults. simpl.
  destruct (checkTimeout (monitor w)) eqn:E; simpl; repeat split; exact E.
Qed.

(** ** C8: the gate *)

(** C8. When the query resolves while the gate is not Awake ([isUserAwake]
    is not [true]), the iteration emits 'check' and nothing else, whatever
    the query returned, and compares nothing: the last-known window, the
    gate and the remembered error are as they were. *)
Theorem C8_gate_not_awake_emits_only_check w n r :
  outstanding w = S n ->
  isUserAwake (monitor w) <> Some true ->
  exists w',
    step w (QueryResolves r) = Some w' /\
    emitted w' = emitted w ++ [EvCheck] /\
    lastWindow (monitor w') = lastWindow (monitor w) /\
    isUserAwake (monitor w') = isUserAwake (monitor w) /\
    lastError (monitor w') = lastError (monitor w).
Proof.
  intros Hout Hgate. unfold step. rewrite Hout.
  eexists; split; [reflexivity|].
  unfold check_then.
  pose proof (emit_check_fields (set_outstanding n w)) as (_ & HW & HA & _ & HE & _).
  simpl in HW, HA, HE. rewrite HA.
  destruct (isUserAwake (monitor w)) as [[|]|] eqn:G; try congruence;
    rewrite emit_check_emitted, HW, HA, HE; repeat split; congruence.
Qed.

(** ** C6: change detection *)

(** C6. When the query resolves with a window while the gate is Awake,
    'windoworurlchange' is emitted with the new snapshot exactly when its url
    or its id differs from the last-known window's, 'windowchange' with the
    same snapshot exactly when the id differs, nothing else follows 'check',
    and the last-known window becomes the new snapshot exactly on a change. *)
Theorem C6_change_detection w n win lastWin :
  outstanding w = S n ->
  isUserAwake (monitor w) = Some true ->
  lastWindow (monitor w) = Some lastWin ->
  exists w' evs,
    step w (QueryResolves (Some win)) = Some w' /\
    emitted w' = emitted w ++ EvCheck :: evs /\
    (In (EvWindowOrUrlChange win) evs <->
       ActiveWindow.url win <> ActiveWindow.url lastWin \/
       ActiveWindow.id win <> ActiveWindow.id lastWin) /\
    (In (EvWindowChange win) evs <->
       ActiveWindow.id win <> ActiveWindow.id lastWin) /\
    (forall e, In e evs -> e = EvWindowOrUrlChange win \/ e = EvWindowChange win) /\
    (ActiveWindow.url win <> ActiveWindow.url lastWin \/
     ActiveWindow.id win <> ActiveWindow.id lastWin ->
       lastWindow (monitor w') = Some win) /\
    (~ (ActiveWindow.url win <> ActiveWindow.url lastWin \/
        ActiveWindow.id win <> ActiveWindow.id lastWin) ->
       lastWindow (monitor w') = Some lastWin).
Proof.
  intros Hout Hgate Hlast. unfold step. rewrite Hout.
  pose proof (emit_check_fields (set_outstanding n w)) as (_ & HW & HA & _).
  simpl in HW, HA.
  pose proof (activeWindowOrUrlChanged_spec win lastWin) as Hany.
  pose proof (activeWindowChanged_spec win lastWin) as Hid.
  exists (check_then (Some win) (set_outstanding n w)).
  unfold check_then. rewrite HA, Hgate. simpl. rewrite HW, Hlast.
  destruct (activeWindowOrUrlChanged win lastWin) eqn:Cany.
  - assert (Pany := proj1 Hany eq_refl).
    destruct (activeWindowChanged win lastWin) eqn:Cid.
    + assert (Pid := proj1 Hid eq_refl).
      exists [EvWindowOrUrlChange win; EvWindowChange win]. simpl.
      rewrite emit_check_emitted, <- !app_assoc. simpl.
      split; [reflexivity|]. split; [reflexivity|].
      split; [split; [intro; exact Pany | intro; now left]|].
      split; [split; [intro; exact Pid | intro; right; now left]|].
      split; [intros e [<-|[<-|[]]]; [now left | now right]|].
      split; [reflexivity | intro; contradiction].
    + assert (Nid : ~ ActiveWindow.id win <> ActiveWindow.id lastWin)
        by (intro H; apply Hid in H; discriminate).
      exists [EvWindowOrUrlChange win]. simpl.
      rewrite emit_check_emitted, <- !app_assoc. simpl.
      split; [reflexivity|]. split; [reflexivity|].
      split; [split; [intro; exact Pany | intro; now left]|].
      split; [split; [intros [E|[]]; discriminate E | intro; contradiction]|].
      split; [intros e [<-|[]]; now left|].
      split; [reflexivity | intro; contradiction].
  - assert (Nany : ~ (ActiveWindow.url win <> ActiveWindow.url lastWin \/
                      ActiveWindow.id win <> ActiveWindow.id lastWin))
      by (intro H; apply Hany in H; discriminate).
    exists []. simpl. rewrite emit_check_emitted, HW, Hlast.
    split; [reflexivity|]. split; [reflexivity|].
    split; [split; [intros [] | intro; contradiction]|].
    split; [split; [intros [] | intro H; exfalso; apply Nany; now right]|].
    split; [intros e []|].
    split; [intro; contradiction | reflexivity].
Qed.

(** ** Reporting of rejections *)

(** What the [catch] block reports.  When a query rejects with [e], 'check' is
    emitted and then 'error' with [e] exactly when the serialisation
    [stringify e] differs from that of the remembered error, which is then
    replaced by [e].  The remembered error is [{}] at construction, and
    neither [start()] nor [stop()] assigns it. *)
Theorem rejection_reported_iff_serialisation_differs w n e :
  (outstanding w = S n ->
   exists w' evs,
     step w (QueryRejects e) = Some w' /\
     emitted w' = emitted w ++ EvCheck :: evs /\
     (In (EvError e) evs <-> stringify e <> stringify (lastError (monitor w))) /\
     (forall ev, In ev evs -> ev = EvError e) /\
     (stringify e <> stringify (lastError (monitor w)) ->
        lastError (monitor w') = e) /\
     (stringify e = stringify (lastError (monitor w)) ->
        lastError (monitor w') = lastError (monitor w))) /\
  lastError (monitor (start w)) = lastError (monitor w) /\
  lastError (monitor (stop w)) = lastError (monitor w) /\
  (forall mc ci ia, lastError (monitor (create mc ci ia)) = emptyObject).
Proof.
  split; [|split; [|split]].
  - intro Hout. unfold step. rewrite Hout.
    exists (check_catch e (set_outstanding n w)).
    pose proof (check_catch_emitted e (set_outstanding n w)) as HE.
    pose proof (check_catch_lastError e (set_outstanding n w)) as HL.
    simpl in HE, HL.
    pose proof (serial_differs_spec (stringify e) (stringify (lastError (monitor w)))) as HS.
    destruct (serial_differs _ _).
    + assert (D := proj1 HS eq_refl).
      exists [EvError e]. split; [reflexivity|]. split; [exact HE|].
      split; [split; [intro; exact D | intro; now left]|].
      split; [intros ev [<-|[]]; reflexivity|].
      split; [intro; exact HL | intro; contradiction].
    + assert (D : ~ stringify e <> stringify (lastError (monitor w)))
        by (intro H; apply HS in H; discriminate).
      exists []. split; [reflexivity|]. split; [exact HE|].
      split; [split; [intros [] | intro; contradiction]|].
      split; [intros ev []|].
      split; [intro; contradiction | intro; exact HL].
  - unfold start, run.
    pose proof (setDefaults_fields w) as (HS & _ & _ & HL & _).
    simpl. rewrite HS. simpl. exact HL.
  - unfold stop. simpl.
    destruct (checkTimeout (monitor w)); simpl;
      destruct (idleTimeout (monitor w)); reflexivity.
  - reflexivity.
Qed.

(** ** C4: when the remembered error is cleared *)

(** C4 (as the code has it).  A resolving query clears the remembered error
    (assigns [{}]) when the gate is Awake and a window was returned; the
    next rejection is then compared with [{}].  When the gate is not Awake,
    or no window was returned, the remembered error is left as it was. *)
Theorem C4_last_error_cleared_when_gated_window w n r :
  outstanding w = S n ->
  exists w',
    step w (QueryResolves r) = Some w' /\
    (forall win lastWin,
       isUserAwake (monitor w) = Some true ->
       r = Some win ->
       lastWindow (monitor w) = Some lastWin ->
       lastError (monitor w') = emptyObject /\
       forall e,
         emitted (check_catch e w') =
         emitted w' ++ EvCheck ::
           (if serial_differs (stringify e) (stringify emptyObject)
            then [EvError e] else [])) /\
    (isUserAwake (monitor w) <> Some true \/ r = None ->
       lastError (monitor w') = lastError (monitor w)).
Proof.
  intro Hout. unfold step. rewrite Hout.
  exists (check_then r (set_outstanding n w)).
  split; [reflexivity|].
  pose proof (emit_check_fields (set_outstanding n w)) as (_ & HW & HA & _ & HE & _).
  simpl in HW, HA, HE.
  split.
  - intros win lastWin Hgate -> Hlast.
    assert (HC : lastError (monitor (check_then (Some win) (set_outstanding n w)))
                 = emptyObject).
    { unfold check_then. rewrite HA, Hgate. simpl. rewrite HW, Hlast.
      reflexivity. }
    split; [exact HC|]. intro e. rewrite check_catch_emitted, HC. reflexivity.
  - intros H. unfold check_then. rewrite HA.
    destruct (isUserAwake (monitor w)) as [[|]|] eqn:G; try exact HE.
    destruct H as [H| ->]; [congruence|]. simpl. exact HE.
Qed.

(** ** C5: what [start()] does *)

(** After [clearTimeout(h)] exactly the timers with another handle are
    pending. *)
Lemma clearTimeout_In h w t :
  In t (timers (clearTimeout h w)) <-> In t (timers w) /\ h <> Some (handle t).
Proof.
  destruct h as [n|]; simpl.
  - rewrite filter_In. unfold other_handle.
    rewrite negb_true_iff, Nat.eqb_neq.
    split; intros [H1 H2]; (split; [exact H1|]); congruence.
  - split; [intro H; split; [exact H | discriminate] | tauto].
Qed.

(** C5 (as the code has it).  [start()] sets the state to RUNNING, the gate
    to neutral and the last-known window to the sentinel, cancels the timer
    [checkTimeout] names and arms no timer itself: the timers pending after
    [start()] are exactly those that were pending before and that
    [checkTimeout] does not name, the idle timer among them.  It then starts
    the mouse checker, issues one window query (registering one 'check'
    listener) and emits 'start'. *)
Theorem C5_start_resets_and_launches w :
  currentState (monitor (start w)) = Some START /\
  lastWindow (monitor (start w)) = Some sentinel /\
  isUserAwake (monitor (start w)) = None /\
  timers (start w) = timers (clearTimeout (checkTimeout (monitor w)) w) /\
  (forall t, In t (timers w) -> Some (handle t) <> checkTimeout (monitor w) ->
             In t (timers (start w))) /\
  nextHandle (start w) = nextHandle w /\
  mouseChecker (start w) = MouseChecker.start (mouseChecker w) /\
  outstanding (start w) = S (outstanding w) /\
  onceCheck (start w) = S (onceCheck w) /\
  emitted (start w) = emitted w ++ [EvStart] /\
  (forall t, In t (timers (start w)) <->
             In t (timers w) /\ checkTimeout (monitor w) <> Some (handle t)) /\
  (forall t, checkTimeout (monitor w) = Some (handle t) ->
             ~ In t (timers (start w))) /\
  timers (start w) =
    filter (fun t => match checkTimeout (monitor w) with
                     | Some h => negb (Nat.eqb (handle t) h)
                     | None => true
                     end) (timers w).
Proof.
  pose proof (setDefaults_fields w)
    as (HS & HA & HW & _ & _ & _ & HT & HN & HE & HO & HC & HM & _).
  assert (HTs : timers (start w) = timers (clearTimeout (checkTimeout (monitor w)) w)).
  { unfold start, run. simpl. rewrite HS. simpl. exact HT. }
  assert (HIn : forall t, In t (timers (start w)) <->
                  In t (timers w) /\ checkTimeout (monitor w) <> Some (handle t)).
  { intro t. rewrite HTs. apply clearTimeout_In. }
  split; [|split; [|split; [|split; [exact HTs|split; [|split; [|split;
    [|split; [|split; [|split; [|split; [exact HIn|split]]]]]]]]]]].
  - unfold start, run. simpl. rewrite HS. simpl. exact HS.
  - unfold start, run. simpl. rewrite HS. simpl. exact HW.
  - unfold start, run. simpl. rewrite HS. simpl. exact HA.
  - intros t Hin Hneq. apply HIn. split; [exact Hin | congruence].
  - unfold start, run. simpl. rewrite HS. simpl. exact HN.
  - unfold start, run. simpl. rewrite HS. simpl. now rewrite HM.
  - unfold start, run. simpl. rewrite HS. simpl. now rewrite HO.
  - unfold start, run. simpl. rewrite HS. simpl. now rewrite HC.
  - unfold start, run. simpl. rewrite HS. simpl. now rewrite HE.
  - intros t Hn Hin. apply HIn in Hin. tauto.
  - rewrite HTs. destruct (checkTimeout (monitor w)) as [h|]; simpl.
    + reflexivity.
    + symmetry. clear. induction (timers w) as [|a l IH]; simpl; [reflexivity|].
      now rewrite IH.
Qed.

(** ** C2: queries do not overlap *)

Lemma filter_swap {A} (f g : A -> bool) (l : list A) :
  filter f (filter g l) = filter g (filter f l).
Proof.
  induction l as [|a l IH]; simpl; [reflexivity|].
  destruct (f a) eqn:Ef, (g a) eqn:Eg; simpl; rewrite ?Ef, ?Eg, IH; reflexivity.
Qed.

Lemma filter_length_le {A} (f : A -> bool) (l : list A) :
  (List.length (filter f l) <= List.length l)%nat.
Proof.
  induction l as [|a l IH]; simpl; [lia|]. destruct (f a); simpl; lia.
Qed.

Lemma Forall_filter {A} (P : A -> Prop) (f : A -> bool) (l : list A) :
  Forall P l -> Forall P (filter f l).
Proof.
  induction 1 as [|a l Ha Hl IH]; simpl; [constructor|].
  destruct (f a); [constructor|]; assumption.
Qed.

Lemma clearTimeout_run_timers h w :
  run_timers (clearTimeout h w) =
  match h with
  | None => run_timers w
  | Some n => filter (other_handle n) (run_timers w)
  end.
Proof.
  destruct h as [n|]; [|reflexivity].
  unfold run_timers. simpl. apply filter_swap.
Qed.

(** Cancelling timers keeps the invariant. *)
Lemma loop_inv_clearTimeout h w : loop_inv w -> loop_inv (clearTimeout h w).
Proof.
  intros (H1 & H2 & H3). unfold loop_inv.
  rewrite clearTimeout_run_timers.
  destruct h as [n|]; simpl; [|now repeat split].
  pose proof (filter_length_le (other_handle n) (run_timers w)).
  repeat split; [lia | exact H2 | now apply Forall_filter].
Qed.

(** The invariant only reads the two counters, the pending [run] timers and
    [checkTimeout]. *)
Lemma loop_inv_same w w' :
  outstanding w' = outstanding w ->
  (onceCheck w' <= onceCheck w)%nat ->
  timers w' = timers w ->
  checkTimeout (monitor w') = checkTimeout (monitor w) ->
  loop_inv w -> loop_inv w'.
Proof.
  intros E1 E2 E3 E4 (H1 & H2 & H3). unfold loop_inv, run_timers in *.
  rewrite E1, E3, E4. repeat split; [exact H1 | lia | exact H3].
Qed.

Lemma loop_inv_setDefaults w :
  Forall (fun t => checkTimeout (monitor w) = Some (handle t)) (run_timers w) ->
  run_timers (setDefaults w) = [].
Proof.
  intro HF. pose proof (setDefaults_fields w) as (_ & _ & _ & _ & _ & _ & HT & _).
  unfold run_timers at 1. rewrite HT. fold (run_timers (clearTimeout (checkTimeout (monitor w)) w)).
  rewrite clearTimeout_run_timers.
  destruct (checkTimeout (monitor w)) as [n|].
  - induction HF as [|t l Ht Hl IH]; simpl; [reflexivity|].
    injection Ht as ->. unfold other_handle at 1. now rewrite Nat.eqb_refl.
  - destruct HF as [|t l Ht _]; [reflexivity | discriminate Ht].
Qed.

(** [emit('check')] with at most one listener and no [run] timer pending
    leaves at most one, the one [checkTimeout] names. *)
Lemma loop_inv_emit_check w :
  outstanding w = 0%nat ->
  (onceCheck w <= 1)%nat ->
  run_timers w = [] ->
  loop_inv (emit_check w).
Proof.
  intros HO HC HR. unfold loop_inv.
  rewrite emit_check_outstanding, emit_check_onceCheck, HO.
  unfold emit_check.
  destruct (onceCheck w) as [|[|k]]; [| |lia]; simpl.
  - unfold run_timers in *. simpl. rewrite HR. repeat split; simpl; try lia. constructor.
  - unfold run_timers in *. simpl. rewrite filter_app, HR. simpl.
    repeat split; simpl; try lia. repeat constructor.
Qed.

Lemma loop_inv_check_catch e w :
  outstanding w = 0%nat ->
  (onceCheck w <= 1)%nat ->
  Forall (fun t => checkTimeout (monitor w) = Some (handle t)) (run_timers w) ->
  loop_inv (check_catch e w).
Proof.
  intros HO HC HF. unfold check_catch.
  pose proof (setDefaults_fields w)
    as (_ & _ & _ & _ & _ & _ & _ & _ & _ & HO' & HC' & _).
  assert (HI : loop_inv (emit_check (setDefaults w))).
  { apply loop_inv_emit_check; [congruence | lia | now apply loop_inv_setDefaults]. }
  destruct (serial_differs _ _); [|exact HI].
  revert HI. apply loop_inv_same; simpl; auto.
Qed.

Lemma loop_inv_check_then r w :
  outstanding w = 0%nat ->
  (onceCheck w <= 1)%nat ->
  run_timers w = [] ->
  loop_inv (check_then r w).
Proof.
  intros HO HC HR.
  assert (HI : loop_inv (emit_check w)) by now apply loop_inv_emit_check.
  unfold check_then.
  destruct (isUserAwake (monitor (emit_check w))) as [[|]|]; try exact HI.
  destruct r as [win|].
  - cbv zeta.
    destruct (lastWindow (monitor (this (set_isUserAwake None) (emit_check w)))) as [lw|].
    + destruct (activeWindowOrUrlChanged win lw);
        [destruct (activeWindowChanged win lw)|];
        revert HI; apply loop_inv_same; simpl; auto.
    + destruct HI as (H1 & H2 & H3).
      apply loop_inv_check_catch; simpl.
      * rewrite emit_check_outstanding. exact HO.
      * rewrite emit_check_onceCheck. lia.
      * exact H3.
  - revert HI. apply loop_inv_same; simpl; auto.
Qed.

Lemma setTimeout_IdleUser_run_timers d w :
  run_timers (snd (setTimeout IdleUser d w)) = run_timers w.
Proof. unfold run_timers. simpl. rewrite filter_app. simpl. apply app_nil_r. Qed.

Lemma loop_inv_awakeUser w : loop_inv w -> loop_inv (awakeUser w).
Proof.
  intro HI. unfold awakeUser.
  assert (G : forall w1, loop_inv w1 ->
    loop_inv
      (let w2 := this (set_isUserAwake (Some true)) w1 in
       let w3 := clearTimeout (idleTimeout (monitor w2)) w2 in
       let (h, w4) := setTimeout IdleUser (idleAfter (monitor w3)) w3 in
       this (set_idleTimeout (Some h)) w4)).
  { intros w1 H1. cbv zeta.
    set (w2 := this (set_isUserAwake (Some true)) w1).
    assert (H2 : loop_inv w2) by (revert H1; apply loop_inv_same; simpl; auto).
    apply (loop_inv_clearTimeout (idleTimeout (monitor w2))) in H2.
    set (w3 := clearTimeout (idleTimeout (monitor w2)) w2) in *.
    destruct H2 as (A & B & C). unfold loop_inv.
    change (run_timers (let (h, w4) := setTimeout IdleUser (idleAfter (monitor w3)) w3 in
                        this (set_idleTimeout (Some h)) w4))
      with (run_timers (snd (setTimeout IdleUser (idleAfter (monitor w3)) w3))).
    rewrite setTimeout_IdleUser_run_timers. simpl. repeat split; assumption. }
  destruct (isUserAwake (monitor w)) as [[|]|]; [exact HI | |now apply G].
  apply G. revert HI. apply loop_inv_same; simpl; auto.
Qed.

Lemma loop_inv_idleUser w : loop_inv w -> loop_inv (idleUser w).
Proof.
  intro HI. unfold idleUser. cbv zeta.
  destruct (is_START _); revert HI; apply loop_inv_same; simpl; auto.
Qed.

Lemma loop_inv_stop w : loop_inv w -> loop_inv (stop w).
Proof.
  intro HI. unfold stop. cbv zeta.
  set (w1 := this (set_currentState (Some STOP)) w).
  assert (H1 : loop_inv w1) by (revert HI; apply loop_inv_same; simpl; auto).
  apply (loop_inv_clearTimeout (checkTimeout (monitor w1))) in H1.
  set (w2 := clearTimeout (checkTimeout (monitor w1)) w1) in *.
  apply (loop_inv_clearTimeout (idleTimeout (monitor w2))) in H1.
  revert H1. apply loop_inv_same; simpl; auto.
Qed.

Lemma loop_inv_destroy w : loop_inv w -> loop_inv (destroy w).
Proof. apply loop_inv_same; simpl; auto; lia. Qed.

(** A [run] that finds the loop idle issues the one query. *)
Lemma loop_inv_run w :
  outstanding w = 0%nat -> onceCheck w = 0%nat -> run_timers w = [] ->
  loop_inv (run w).
Proof.
  intros HO HC HR. unfold run, loop_inv.
  destruct (is_START _); unfold run_timers in *; simpl; rewrite HO, HC, HR; simpl;
    repeat split; try lia; constructor.
Qed.

Lemma loop_inv_start w :
  loop_inv w -> outstanding w = 0%nat -> loop_inv (start w).
Proof.
  intros (H1 & H2 & H3) HO. unfold start. cbv zeta.
  pose proof (setDefaults_fields w)
    as (_ & _ & _ & _ & _ & _ & _ & _ & _ & HO' & HC' & _).
  pose proof (loop_inv_setDefaults w H3) as HR.
  set (w2 := with_mouseChecker MouseChecker.start (setDefaults w)).
  assert (HI : loop_inv (run w2)).
  { apply loop_inv_run; subst w2; simpl; [congruence | lia | exact HR]. }
  revert HI. apply loop_inv_same; simpl; auto.
Qed.

Lemma find_has_handle h (ts : list Timer) t :
  find (has_handle h) ts = Some t -> In t ts /\ handle t = h.
Proof.
  intro H. apply find_some in H. destruct H as [Hin Hh].
  split; [exact Hin|]. now apply Nat.eqb_eq.
Qed.

Lemma loop_inv_timer h t w :
  loop_inv w -> find (has_handle h) (timers w) = Some t ->
  loop_inv (call (callback t) (clearTimeout (Some h) w)).
Proof.
  intros HI Hf. apply find_has_handle in Hf. destruct Hf as [Hin Hh].
  destruct (callback t) eqn:Cb; simpl.
  - (* the timer of the check loop *)
    destruct HI as (H1 & H2 & H3).
    assert (Hrt : In t (run_timers w)).
    { unfold run_timers. apply filter_In. split; [exact Hin|]. now rewrite Cb. }
    destruct (run_timers w) as [|t1 [|t2 l]] eqn:Ert.
    { contradiction. }
    2: { simpl in H1. lia. }
    destruct Hrt as [->|[]]. simpl in H1.
    apply loop_inv_run; simpl; try lia.
    change (run_timers (clearTimeout (Some h) w) = []).
    rewrite clearTimeout_run_timers, Ert. simpl.
    unfold other_handle. now rewrite Hh, Nat.eqb_refl.
  - apply loop_inv_idleUser. exact (loop_inv_clearTimeout (Some h) w HI).
Qed.

(** Every transition keeps the invariant, provided [start()] is not called
    while a query is outstanding. *)
Lemma loop_inv_step w i w' :
  loop_inv w -> start_settled w i = true -> step w i = Some w' -> loop_inv w'.
Proof.
  intros HI Hs Hstep. destruct i; simpl in Hstep, Hs.
  - injection Hstep as <-. apply loop_inv_start; [exact HI | now apply Nat.eqb_eq].
  - injection Hstep as <-. now apply loop_inv_stop.
  - injection Hstep as <-. now apply loop_inv_destroy.
  - injection Hstep as <-. unfold deliver_mousemove.
    destruct (mousemoveListener w); [now apply loop_inv_awakeUser | exact HI].
  - destruct (MouseChecker.sampling _); [|discriminate].
    destruct (MouseChecker.tick mousePos (mouseChecker w)) as [mc moved].
    injection Hstep as <-.
    assert (H1 : loop_inv (with_mouseChecker (fun _ => mc) w))
      by (revert HI; apply loop_inv_same; simpl; auto).
    destruct moved; [|exact H1]. unfold deliver_mousemove.
    destruct (mousemoveListener _); [now apply loop_inv_awakeUser | exact H1].
  - destruct (find (has_handle h) (timers w)) as [t|] eqn:Hf; [|discriminate].
    injection Hstep as <-. now apply loop_inv_timer.
  - destruct HI as (H1 & H2 & H3).
    destruct (outstanding w) as [|n] eqn:HO; [discriminate|].
    injection Hstep as <-.
    destruct (run_timers w) eqn:Ert; simpl in H1; [|lia].
    apply loop_inv_check_then; simpl; [lia | lia | exact Ert].
  - destruct HI as (H1 & H2 & H3).
    destruct (outstanding w) as [|n] eqn:HO; [discriminate|].
    injection Hstep as <-.
    apply loop_inv_check_catch; simpl; [lia | lia | exact H3].
Qed.

Lemma loop_inv_create mc ci ia : loop_inv (create mc ci ia).
Proof. unfold loop_inv, run_timers. simpl. repeat split; try lia. constructor. Qed.

Lemma loop_inv_exec inputs : forall w w',
  loop_inv w -> starts_when_settled w inputs = true ->
  exec w inputs = Some w' -> loop_inv w'.
Proof.
  induction inputs as [|i rest IH]; intros w w' HI Hs He; simpl in *.
  - now injection He as <-.
  - apply andb_true_iff in Hs. destruct Hs as [Hs1 Hs2].
    destruct (step w i) as [w1|] eqn:Hstep; [|discriminate].
    apply (IH w1 w'); [now apply (loop_inv_step w i) | exact Hs2 | exact He].
Qed.

Lemma starts_when_settled_prefix pre : forall w post,
  starts_when_settled w (pre ++ post) = true ->
  starts_when_settled w pre = true.
Proof.
  induction pre as [|i pre IH]; intros w post H; simpl in *; [reflexivity|].
  apply andb_true_iff in H. destruct H as [H1 H2]. rewrite H1. simpl.
  destruct (step w i) as [w1|]; [now apply (IH w1 post) | discriminate].
Qed.

Lemma starts_when_settled_exec inputs : forall w,
  starts_when_settled w inputs = true -> exists w', exec w inputs = Some w'.
Proof.
  induction inputs as [|i rest IH]; intros w H; simpl in *; [now exists w|].
  apply andb_true_iff in H. destruct H as [_ H].
  destruct (step w i) as [w1|]; [now apply IH | discriminate].
Qed.

(** C2 (as the code has it).  From a freshly constructed monitor, along
    every run of calls, notifications, timer firings and query settlements in
    which [start()] is only called while no window query is outstanding, at
    most one window query is outstanding at every point of the run. *)
Theorem C2_at_most_one_query_outstanding mc ci ia inputs :
  starts_when_settled (create mc ci ia) inputs = true ->
  forall pre post, inputs = pre ++ post ->
  exists w, exec (create mc ci ia) pre = Some w /\ (outstanding w <= 1)%nat.
Proof.
  intros Hs pre post ->.
  apply starts_when_settled_prefix in Hs.
  destruct (starts_when_settled_exec pre _ Hs) as [w Hw].
  exists w. split; [exact Hw|].
  destruct (loop_inv_exec pre _ w (loop_inv_create mc ci ia) Hs Hw) as (H & _).
  lia.
Qed.

(** ** C10: [destroy()] *)


Lemma emit_check_one_listener w :
  onceCheck w = 1%nat ->
  timers (emit_check w) = timers w ++ [next_run_timer (nextHandle w) w].
Proof. intro H. unfold emit_check. rewrite H. reflexivity. Qed.

Lemma check_then_timers r w lw :
  onceCheck w = 1%nat -> lastWindow (monitor w) = Some lw ->
  timers (check_then r w) = timers w ++ [next_run_timer (nextHandle w) w].
Proof.
  intros H1 HL. unfold check_then.
  pose proof (emit_check_fields w) as (_ & HW & _). simpl in HW.
  destruct (isUserAwake (monitor (emit_check w))) as [[|]|];
    try now apply emit_check_one_listener.
  destruct r as [win|]; cbv zeta; [|simpl; now apply emit_check_one_listener].
  change (lastWindow (monitor (this (set_isUserAwake None) (emit_check w))))
    with (lastWindow (monitor (emit_check w))).
  rewrite HW, HL.
  destruct (activeWindowOrUrlChanged win lw); [destruct (activeWindowChanged win lw)|];
    simpl; now apply emit_check_one_listener.
Qed.

Lemma check_catch_timers e w :
  onceCheck w = 1%nat ->
  In (next_run_timer (nextHandle w) w) (timers (check_catch e w)).
Proof.
  intro H1. unfold check_catch.
  pose proof (setDefaults_fields w)
    as (_ & _ & _ & _ & _ & _ & _ & HN & _ & _ & HC & _).
  assert (HT : timers (emit_check (setDefaults w)) =
               timers (setDefaults w) ++ [next_run_timer (nextHandle w) w]).
  { rewrite emit_check_one_listener by congruence. rewrite HN.
    unfold next_run_timer, setDefaults. simpl.
    destruct (checkTimeout (monitor w)); reflexivity. }
  destruct (serial_differs _ _); simpl; rewrite HT; apply in_or_app; right; now left.
Qed.

Lemma check_catch_counters e w :
  nextHandle (check_catch e w) = (nextHandle w + onceCheck w)%nat /\
  outstanding (check_catch e w) = outstanding w.
Proof.
  unfold check_catch.
  pose proof (setDefaults_fields w)
    as (_ & _ & _ & _ & _ & _ & _ & HN & _ & HO & HC & _).
  pose proof (emit_check_nextHandle (setDefaults w)) as H1.
  pose proof (emit_check_outstanding (setDefaults w)) as H2.
  rewrite HN, HC in H1. rewrite HO in H2.
  destruct (serial_differs _ _); simpl; split; assumption.
Qed.

Lemma check_then_counters r w :
  nextHandle (check_then r w) = (nextHandle w + onceCheck w)%nat /\
  outstanding (check_then r w) = outstanding w.
Proof.
  unfold check_then.
  pose proof (emit_check_nextHandle w) as H1.
  pose proof (emit_check_outstanding w) as H2.
  pose proof (emit_check_onceCheck w) as H3.
  destruct (isUserAwake (monitor (emit_check w))) as [[|]|]; try (split; assumption).
  destruct r as [win|]; cbv zeta; [|simpl; split; assumption].
  destruct (lastWindow (monitor (this (set_isUserAwake None) (emit_check w)))) as [lw|].
  - destruct (activeWindowOrUrlChanged win lw); [destruct (activeWindowChanged win lw)|];
      simpl; split; assumption.
  - destruct (check_catch_counters typeError (this (set_isUserAwake None) (emit_check w)))
      as [A B].
    rewrite A, B. simpl. rewrite H1, H2, H3. split; lia.
Qed.

(** C10 (as the code has it).  [destroy()] removes the 'mousemove' listener
    and every listener of the monitor, the loop's own 'check' listener
    included; the monitor's fields, the timers, the mouse checker's sampling,
    the outstanding queries and the emitted events are as before.  If the
    check timer is pending in a RUNNING monitor, its firing issues the next
    query, whose settlement arms the timer again.  If a query is outstanding,
    its settlement arms no timer. *)
Theorem C10_destroy_removes_listeners_only w :
  monitor (destroy w) = monitor w /\
  timers (destroy w) = timers w /\
  mouseChecker (destroy w) = mouseChecker w /\
  outstanding (destroy w) = outstanding w /\
  emitted (destroy w) = emitted w /\
  mousemoveListener (destroy w) = false /\
  onceCheck (destroy w) = 0%nat /\
  (forall h t lw,
     find (has_handle h) (timers w) = Some t -> callback t = Run ->
     currentState (monitor w) = Some START ->
     lastWindow (monitor w) = Some lw ->
     exists w1,
       step (destroy w) (TimerFires h) = Some w1 /\
       outstanding w1 = S (outstanding w) /\
       (forall r, exists w2,
          step w1 (QueryResolves r) = Some w2 /\
          In (next_run_timer (nextHandle w) w) (timers w2)) /\
       (forall e, exists w2,
          step w1 (QueryRejects e) = Some w2 /\
          In (next_run_timer (nextHandle w) w) (timers w2))) /\
  (forall n, outstanding w = S n ->
     (forall r, exists w1,
        step (destroy w) (QueryResolves r) = Some w1 /\
        outstanding w1 = n /\ nextHandle w1 = nextHandle w) /\
     (forall e, exists w1,
        step (destroy w) (QueryRejects e) = Some w1 /\
        outstanding w1 = n /\ nextHandle w1 = nextHandle w)).
Proof.
  repeat (split; [reflexivity|]). split.
  - intros h t lw Hf Cb HS HL. simpl. rewrite Hf, Cb. simpl.
    unfold run. simpl. rewrite HS. simpl.
    eexists; split; [reflexivity|]. split; [reflexivity|].
    unfold step. simpl. split.
    + intro r. eexists; split; [reflexivity|].
      match goal with
      | |- In _ (timers (check_then r ?W)) =>
          rewrite (check_then_timers r W lw eq_refl HL)
      end.
      apply in_or_app; right; now left.
    + intro e. eexists; split; [reflexivity|].
      match goal with
      | |- In _ (timers (check_catch e ?W)) =>
          exact (check_catch_timers e W eq_refl)
      end.
  - intros n Hout. simpl. rewrite Hout. split.
    + intro r. eexists; split; [reflexivity|].
      destruct (check_then_counters r (set_outstanding n (destroy w))) as [A B].
      rewrite A, B. simpl. split; [reflexivity | lia].
    + intro e. eexists; split; [reflexivity|].
      destruct (check_catch_counters e (set_outstanding n (destroy w))) as [A B].
      rewrite A, B. simpl. split; [reflexivity | lia].
Qed.

(** Once the loop has ended, only [start()] can issue a query again. *)

Lemma loop_ended_same w w' :
  outstanding w' = outstanding w -> timers w' = timers w ->
  loop_ended w -> loop_ended w'.
Proof.
  intros E1 E2 (H1 & H2). unfold loop_ended, run_timers in *. now rewrite E1, E2.
Qed.

Lemma loop_ended_clearTimeout h w : loop_ended w -> loop_ended (clearTimeout h w).
Proof.
  intros (H1 & H2). unfold loop_ended. rewrite clearTimeout_run_timers, H2.
  destruct h; simpl; split; auto.
Qed.

Lemma loop_ended_awakeUser w : loop_ended w -> loop_ended (awakeUser w).
Proof.
  intro HI. unfold awakeUser.
  assert (G : forall w1, loop_ended w1 ->
    loop_ended
      (let w2 := this (set_isUserAwake (Some true)) w1 in
       let w3 := clearTimeout (idleTimeout (monitor w2)) w2 in
       let (h, w4) := setTimeout IdleUser (idleAfter (monitor w3)) w3 in
       this (set_idleTimeout (Some h)) w4)).
  { intros w1 H1. cbv zeta.
    set (w2 := this (set_isUserAwake (Some true)) w1).
    assert (H2 : loop_ended w2) by (revert H1; apply loop_ended_same; reflexivity).
    apply (loop_ended_clearTimeout (idleTimeout (monitor w2))) in H2.
    set (w3 := clearTimeout (idleTimeout (monitor w2)) w2) in *.
    destruct H2 as (A & B). unfold loop_ended.
    change (run_timers (let (h, w4) := setTimeout IdleUser (idleAfter (monitor w3)) w3 in
                        this (set_idleTimeout (Some h)) w4))
      with (run_timers (snd (setTimeout IdleUser (idleAfter (monitor w3)) w3))).
    rewrite setTimeout_IdleUser_run_timers. simpl. split; assumption. }
  destruct (isUserAwake (monitor w)) as [[|]|]; [exact HI | |now apply G].
  apply G. revert HI. apply loop_ended_same; reflexivity.
Qed.

Lemma loop_ended_step w i w' :
  loop_ended w -> is_CallStart i = false -> step w i = Some w' -> loop_ended w'.
Proof.
  intros HI Hi Hstep. destruct i; simpl in Hstep, Hi; try discriminate Hi.
  - injection Hstep as <-. unfold stop. cbv zeta.
    set (w1 := this (set_currentState (Some STOP)) w).
    assert (H1 : loop_ended w1) by (revert HI; apply loop_ended_same; reflexivity).
    apply (loop_ended_clearTimeout (checkTimeout (monitor w1))) in H1.
    set (w2 := clearTimeout (checkTimeout (monitor w1)) w1) in *.
    apply (loop_ended_clearTimeout (idleTimeout (monitor w2))) in H1.
    revert H1. apply loop_ended_same; reflexivity.
  - injection Hstep as <-. revert HI. apply loop_ended_same; reflexivity.
  - injection Hstep as <-. unfold deliver_mousemove.
    destruct (mousemoveListener w); [now apply loop_ended_awakeUser | exact HI].
  - destruct (MouseChecker.sampling _); [|discriminate].
    destruct (MouseChecker.tick mousePos (mouseChecker w)) as [mc moved].
    injection Hstep as <-.
    assert (H1 : loop_ended (with_mouseChecker (fun _ => mc) w))
      by (revert HI; apply loop_ended_same; reflexivity).
    destruct moved; [|exact H1]. unfold deliver_mousemove.
    destruct (mousemoveListener _); [now apply loop_ended_awakeUser | exact H1].
  - destruct (find (has_handle h) (timers w)) as [t|] eqn:Hf; [|discriminate].
    injection Hstep as <-. apply find_has_handle in Hf. destruct Hf as [Hin _].
    destruct (callback t) eqn:Cb.
    + exfalso. destruct HI as (_ & HR).
      assert (Hrt : In t (run_timers w))
        by (unfold run_timers; apply filter_In; split; [exact Hin | now rewrite Cb]).
      rewrite HR in Hrt. exact Hrt.
    + simpl. pose proof (loop_ended_clearTimeout (Some h) w HI) as H1.
      unfold idleUser. cbv zeta.
      destruct (is_START _); revert H1; apply loop_ended_same; reflexivity.
  - destruct HI as (HO & _). rewrite HO in Hstep. discriminate.
  - destruct HI as (HO & _). rewrite HO in Hstep. discriminate.
Qed.

Lemma loop_ended_exec inputs : forall w w',
  loop_ended w -> forallb (fun i => negb (is_CallStart i)) inputs = true ->
  exec w inputs = Some w' -> loop_ended w'.
Proof.
  induction inputs as [|i rest IH]; intros w w' HI Hs He; simpl in *.
  - now injection He as <-.
  - apply andb_true_iff in Hs. destruct Hs as [Hs1 Hs2].
    apply negb_true_iff in Hs1.
    destruct (step w i) as [w1|] eqn:Hstep; [|discriminate].
    apply (IH w1 w'); [now apply (loop_ended_step w i) | exact Hs2 | exact He].
Qed.

Lemma clearTimeout_frame h w :
  emitted (clearTimeout h w) = emitted w /\
  outstanding (clearTimeout h w) = outstanding w /\
  monitor (clearTimeout h w) = monitor w.
Proof. destruct h; repeat split. Qed.

Lemma stop_frame w :
  emitted (stop w) = emitted w ++ [EvStop] /\
  outstanding (stop w) = outstanding w.
Proof.
  unfold stop. cbv zeta.
  set (w1 := this (set_currentState (Some STOP)) w).
  set (w2 := clearTimeout (checkTimeout (monitor w1)) w1).
  set (w3 := clearTimeout (idleTimeout (monitor w2)) w2).
  destruct (clearTimeout_frame (idleTimeout (monitor w2)) w2) as (A3 & B3 & _).
  destruct (clearTimeout_frame (checkTimeout (monitor w1)) w1) as (A2 & B2 & _).
  fold w2 in A3, B3, A2, B2. fold w3 in A3, B3.
  change (emitted w3 ++ [EvStop] = emitted w ++ [EvStop] /\
          outstanding w3 = outstanding w).
  rewrite A3, A2, B3, B2. split; reflexivity.
Qed.

(** A resolved query always has 'check' emitted first. *)
Lemma check_then_emits_check r w :
  exists evs, emitted (check_then r w) = emitted w ++ EvCheck :: evs.
Proof.
  unfold check_then.
  pose proof (emit_check_emitted w) as HE.
  destruct (isUserAwake (monitor (emit_check w))) as [[|]|];
    try (exists []; exact HE).
  destruct r as [win|]; cbv zeta.
  - destruct (lastWindow (monitor (this (set_isUserAwake None) (emit_check w)))) as [lw|].
    + destruct (activeWindowOrUrlChanged win lw);
        [destruct (activeWindowChanged win lw)|].
      * exists [EvWindowOrUrlChange win; EvWindowChange win].
        change (((emitted (emit_check w) ++ [EvWindowOrUrlChange win]) ++
                 [EvWindowChange win]) =
                emitted w ++ [EvCheck; EvWindowOrUrlChange win; EvWindowChange win]).
        rewrite HE, <- !app_assoc. reflexivity.
      * exists [EvWindowOrUrlChange win].
        change ((emitted (emit_check w) ++ [EvWindowOrUrlChange win]) =
                emitted w ++ [EvCheck; EvWindowOrUrlChange win]).
        rewrite HE, <- !app_assoc. reflexivity.
      * exists []. exact HE.
    + rewrite check_catch_emitted.
      change (emitted (this (set_isUserAwake None) (emit_check w)))
        with (emitted (emit_check w)).
      rewrite HE, <- app_assoc. eexists. reflexivity.
  - exists [EvWindowInactive "Active window not detected."].
    change ((emitted (emit_check w) ++ [EvWindowInactive "Active window not detected."]) =
            emitted w ++ [EvCheck; EvWindowInactive "Active window not detected."]).
    rewrite HE, <- !app_assoc. reflexivity.
Qed.

Lemma check_catch_running e w :
  currentState (monitor (check_catch e w)) = Some START.
Proof.
  unfold check_catch.
  pose proof (emit_check_fields (setDefaults w)) as (HS & _).
  pose proof (setDefaults_fields w) as (HS' & _).
  cbv zeta in HS, HS'. rewrite HS' in HS.
  destruct (serial_differs _ _); exact HS.
Qed.

(** Whatever the state at [stop()], a query that settles afterwards still
    has 'check' emitted, and a rejection puts the monitor back to RUNNING. *)
Lemma settlement_after_stop w n :
  outstanding w = S n ->
  (forall r, exists w',
     step (stop w) (QueryResolves r) = Some w' /\
     exists evs, emitted w' = emitted w ++ EvStop :: EvCheck :: evs) /\
  (forall e, exists w',
     step (stop w) (QueryRejects e) = Some w' /\
     currentState (monitor w') = Some START /\
     exists evs, emitted w' = emitted w ++ EvStop :: EvCheck :: evs).
Proof.
  intro Hout.
  destruct (stop_frame w) as [HE HO]. rewrite Hout in HO.
  set (ws := stop w) in *.
  assert (HE' : emitted (set_outstanding n ws) = emitted w ++ [EvStop]) by exact HE.
  split.
  - intro r. exists (check_then r (set_outstanding n ws)). split.
    + unfold step. rewrite HO. reflexivity.
    + destruct (check_then_emits_check r (set_outstanding n ws)) as [evs H].
      exists evs. rewrite H, HE', <- app_assoc. reflexivity.
  - intro e. exists (check_catch e (set_outstanding n ws)). split.
    + unfold step. rewrite HO. reflexivity.
    + split; [apply check_catch_running|].
      rewrite check_catch_emitted, HE', <- app_assoc. eexists. reflexivity.
Qed.

End Properties.

(** ** C9: the mouse checker *)

(** What the interval callback does: it emits exactly when there is no
    retained sample or both coordinates differ from it, and retains the
    sample exactly when it emits. *)
Lemma tick_emits_iff (mousePos : MouseChecker.Point) (m : MouseChecker.t) :
  snd (MouseChecker.tick mousePos m) = true <->
  match MouseChecker.lastMousePos m with
  | None => True
  | Some l =>
      MouseChecker.x mousePos <> MouseChecker.x l /\
      MouseChecker.y mousePos <> MouseChecker.y l
  end.
Proof.
  unfold MouseChecker.tick, MouseChecker.moved.
  destruct (MouseChecker.lastMousePos m) as [l|]; simpl; [|tauto].
  destruct (MouseChecker.x mousePos =? MouseChecker.x l) eqn:Ex;
    destruct (MouseChecker.y mousePos =? MouseChecker.y l) eqn:Ey; simpl;
    rewrite ?Z.eqb_eq, ?Z.eqb_neq in *; split; try tauto; try discriminate.
Qed.

(** An emission always means the position changed; the converse is what
    fails. *)
Lemma moved_position_changed last mousePos :
  MouseChecker.moved last mousePos = true ->
  MouseChecker.position_changed last mousePos = true.
Proof.
  unfold MouseChecker.moved, MouseChecker.position_changed.
  destruct last as [l|]; [|reflexivity].
  destruct (MouseChecker.x mousePos =? MouseChecker.x l); simpl; [discriminate|reflexivity].
Qed.


(** C9.  The first tick after [start()] emits 'mousemove' and retains the
    sample (0,0).  At the next tick the cursor is at (5,0): the position has
    changed, yet nothing is emitted and the retained sample stays (0,0). *)
Theorem C9_horizontal_move_not_reported :
  MouseChecker.tick origin (MouseChecker.start MouseChecker.create)
    = (sampled_at_origin, true) /\
  MouseChecker.lastMousePos sampled_at_origin = Some origin /\
  MouseChecker.position_changed (Some origin) right_of_origin = true /\
  MouseChecker.tick right_of_origin sampled_at_origin = (sampled_at_origin, false).
Proof. repeat split. Qed.

(** ** The monitor run on concrete inputs *)

(** C1.  [stop()] is called while the first query is outstanding.
    (a) The user had moved the mouse; the query then resolves with a window:
    'check', 'windoworurlchange' and 'windowchange' are emitted after 'stop',
    and the check timer is armed.
    (b) The query rejects: the monitor is RUNNING again, 'check' and 'error'
    are emitted after 'stop', and when the timer it armed fires a new query
    is issued. *)
Theorem C1_settlement_after_stop_is_processed :
  option_map (fun w => (emitted w, timers w))
    (exec monitor0 [CallStart; MouseMove; CallStop; QueryResolves (Some winA)])
  = Some ([EvStart; EvStop; EvCheck; EvWindowOrUrlChange winA; EvWindowChange winA],
          [run_timer 1]) /\
  option_map (fun w => (currentState (monitor w), emitted w, outstanding w))
    (exec monitor0 [CallStart; CallStop; QueryRejects E1; TimerFires 0%nat])
  = Some (Some START, [EvStart; EvStop; EvCheck; EvError E1], 1%nat).
Proof. split; vm_compute; reflexivity. Qed.

(** C2, refuted as stated: [start()] called twice in a row leaves two window
    queries outstanding. *)
Lemma C2_second_start_overlaps_queries :
  option_map outstanding (exec monitor0 [CallStart; CallStart]) = Some 2%nat.
Proof. vm_compute. reflexivity. Qed.

(** C3.  The first rejection after [start()] ought to be reported, whatever
    its value.  The code emits 'check' and no 'error' when the value is the
    empty object and when it is an [Error] instance (both serialise like the
    initial [lastError = {}]), and when it is the value remembered from
    before a [stop()]. *)
Lemma C3_first_rejection_not_reported :
  option_map emitted (exec monitor0 [CallStart; QueryRejects (JS.Obj [])])
    = Some [EvStart; EvCheck] /\
  option_map emitted (exec monitor0 [CallStart; QueryRejects (JS.ErrorObject "boom")])
    = Some [EvStart; EvCheck] /\
  option_map emitted
    (exec monitor0 [CallStart; QueryRejects E1; CallStop; CallStart; QueryRejects E1])
    = Some [EvStart; EvCheck; EvError E1; EvStop; EvStart; EvCheck].
Proof. split; [|split]; vm_compute; reflexivity. Qed.

(** C4, refuted as stated: after a rejection with E1 the next query
    resolves, (a) with a window while the gate is not Awake, (b) with no
    window while the gate is Awake; the error stays remembered and the
    following rejection with E1 is not reported. *)
Lemma C4_resolution_keeps_remembered_error :
  option_map (fun w => (emitted w, lastError (monitor w)))
    (exec monitor0 [CallStart; QueryRejects E1; TimerFires 0%nat;
                    QueryResolves (Some winA); TimerFires 1%nat; QueryRejects E1])
    = Some ([EvStart; EvCheck; EvError E1; EvCheck; EvCheck], E1) /\
  option_map (fun w => (emitted w, lastError (monitor w)))
    (exec monitor0 [CallStart; QueryRejects E1; MouseMove; TimerFires 0%nat;
                    QueryResolves None; TimerFires 2%nat; QueryRejects E1])
    = Some ([EvStart; EvCheck; EvError E1; EvCheck;
             EvWindowInactive "Active window not detected."; EvCheck], E1).
Proof. split; vm_compute; reflexivity. Qed.

(** C5, refuted as stated: the idle timer armed by a 'mousemove' in the
    first session is still pending after the second [start()], which armed
    no timer; it fires in the new session and 'idle' is emitted. *)
Lemma C5_idle_timer_survives_start :
  option_map timers
    (exec monitor0 [CallStart; MouseMove; QueryResolves (Some winA); CallStart])
    = Some [idle_timer 0] /\
  option_map (fun w => (emitted w, currentState (monitor w)))
    (exec monitor0 [CallStart; MouseMove; QueryResolves (Some winA); CallStart;
                    TimerFires 0%nat])
    = Some ([EvStart; EvCheck; EvWindowOrUrlChange winA; EvWindowChange winA;
             EvStart; EvIdle], Some START).
Proof. split; vm_compute; reflexivity. Qed.

(** C10, refuted as stated: [destroy()] is called on a RUNNING monitor
    while its query is outstanding.  When the query resolves no timer is
    armed: the monitor is still RUNNING, but nothing is pending and no query
    is outstanding. *)
Lemma C10_destroy_with_query_outstanding_ends_loop :
  option_map (fun w => (currentState (monitor w), timers w, outstanding w))
    (exec monitor0 [CallStart; CallDestroy; QueryResolves (Some winA)])
  = Some (Some START, [], 0%nat).
Proof. vm_compute. reflexivity. Qed.

(** *** The theorems at concrete worlds *)

Lemma C2_witness :
  starts_when_settled monitor0 disciplined_run = true /\
  exists w, exec monitor0 disciplined_run = Some w /\ (outstanding w <= 1)%nat.
Proof.
  assert (H : starts_when_settled monitor0 disciplined_run = true)
    by (vm_compute; reflexivity).
  split; [exact H|].
  apply (C2_at_most_one_query_outstanding MouseChecker.create 100 1000
           disciplined_run H disciplined_run []).
  symmetry. apply app_nil_r.
Defined.

Lemma rejection_reported_iff_serialisation_differs_witness :
  outstanding started = 1%nat /\
  exists w' evs,
    step started (QueryRejects E1) = Some w' /\
    emitted w' = emitted started ++ EvCheck :: evs /\
    (In (EvError E1) evs <-> stringify E1 <> stringify (lastError (monitor started))) /\
    (forall ev, In ev evs -> ev = EvError E1) /\
    (stringify E1 <> stringify (lastError (monitor started)) ->
       lastError (monitor w') = E1) /\
    (stringify E1 = stringify (lastError (monitor started)) ->
       lastError (monitor w') = lastError (monitor started)).
Proof.
  split; [reflexivity|].
  exact (proj1 (rejection_reported_iff_serialisation_differs started 0%nat E1) eq_refl).
Defined.

Lemma C4_witness :
  outstanding started_awake = 1%nat /\
  exists w',
    step started_awake (QueryResolves (Some winA)) = Some w' /\
    (forall win lastWin,
       isUserAwake (monitor started_awake) = Some true ->
       Some winA = Some win ->
       lastWindow (monitor started_awake) = Some lastWin ->
       lastError (monitor w') = emptyObject /\
       forall e,
         emitted (check_catch e w') =
         emitted w' ++ EvCheck ::
           (if serial_differs (stringify e) (stringify emptyObject)
            then [EvError e] else [])) /\
    (isUserAwake (monitor started_awake) <> Some true \/ Some winA = None ->
       lastError (monitor w') = lastError (monitor started_awake)).
Proof.
  split; [reflexivity|].
  exact (C4_last_error_cleared_when_gated_window started_awake 0%nat (Some winA) eq_refl).
Defined.

Lemma C5_witness :
  In (idle_timer 0) (timers reported) /\
  Some (handle (idle_timer 0)) <> checkTimeout (monitor reported) /\
  In (idle_timer 0) (timers (start reported)) /\
  In (run_timer 1) (timers reported) /\
  checkTimeout (monitor reported) = Some (handle (run_timer 1)) /\
  ~ In (run_timer 1) (timers (start reported)).
Proof.
  assert (H1 : In (idle_timer 0) (timers reported)) by (left; reflexivity).
  assert (H2 : Some (handle (idle_timer 0)) <> checkTimeout (monitor reported))
    by (intro H; discriminate H).
  assert (H3 : In (run_timer 1) (timers reported)) by (right; left; reflexivity).
  assert (H4 : checkTimeout (monitor reported) = Some (handle (run_timer 1)))
    by reflexivity.
  split; [exact H1|]. split; [exact H2|].
  destruct (C5_start_resets_and_launches reported)
    as (_ & _ & _ & _ & H & _ & _ & _ & _ & _ & _ & HC & _).
  split; [exact (H (idle_timer 0) H1 H2)|].
  split; [exact H3|]. split; [exact H4|].
  exact (HC (run_timer 1) H4).
Defined.

Lemma C6_witness :
  outstanding started_awake = 1%nat /\
  isUserAwake (monitor started_awake) = Some true /\
  lastWindow (monitor started_awake) = Some sentinel /\
  exists w' evs,
    step started_awake (QueryResolves (Some winA)) = Some w' /\
    emitted w' = emitted started_awake ++ EvCheck :: evs /\
    (In (EvWindowOrUrlChange winA) evs <->
       ActiveWindow.url winA <> ActiveWindow.url sentinel \/
       ActiveWindow.id winA <> ActiveWindow.id sentinel) /\
    (In (EvWindowChange winA) evs <->
       ActiveWindow.id winA <> ActiveWindow.id sentinel) /\
    (forall e, In e evs -> e = EvWindowOrUrlChange winA \/ e = EvWindowChange winA) /\
    (ActiveWindow.url winA <> ActiveWindow.url sentinel \/
     ActiveWindow.id winA <> ActiveWindow.id sentinel ->
       lastWindow (monitor w') = Some winA) /\
    (~ (ActiveWindow.url winA <> ActiveWindow.url sentinel \/
        ActiveWindow.id winA <> ActiveWindow.id sentinel) ->
       lastWindow (monitor w') = Some sentinel).
Proof.
  split; [reflexivity|]. split; [reflexivity|]. split; [reflexivity|].
  exact (C6_change_detection started_awake 0%nat winA sentinel eq_refl eq_refl eq_refl).
Defined.

Lemma C8_witness :
  outstanding started = 1%nat /\
  isUserAwake (monitor started) <> Some true /\
  exists w',
    step started (QueryResolves (Some winA)) = Some w' /\
    emitted w' = emitted started ++ [EvCheck] /\
    lastWindow (monitor w') = lastWindow (monitor started) /\
    isUserAwake (monitor w') = isUserAwake (monitor started) /\
    lastError (monitor w') = lastError (monitor started).
Proof.
  assert (H : isUserAwake (monitor started) <> Some true) by (intro E; discriminate E).
  split; [reflexivity|]. split; [exact H|].
  exact (C8_gate_not_awake_emits_only_check started 0%nat (Some winA) eq_refl H).
Defined.

Lemma C10_witness :
  (find (has_handle 0) (timers between_checks) = Some (run_timer 0) /\
   currentState (monitor between_checks) = Some START /\
   exists w1,
     step (destroy between_checks) (TimerFires 0%nat) = Some w1 /\
     outstanding w1 = 1%nat) /\
  (outstanding started = 1%nat /\
   exists w1,
     step (destroy started) (QueryResolves (Some winA)) = Some w1 /\
     outstanding w1 = 0%nat /\ nextHandle w1 = nextHandle started).
Proof.
  destruct (C10_destroy_removes_listeners_only between_checks)
    as (_ & _ & _ & _ & _ & _ & _ & A & _).
  destruct (C10_destroy_removes_listeners_only started)
    as (_ & _ & _ & _ & _ & _ & _ & _ & B).
  split.
  - split; [reflexivity|]. split; [reflexivity|].
    destruct (A 0%nat (run_timer 0) sentinel eq_refl eq_refl eq_refl eq_refl)
      as (w1 & H1 & H2 & _).
    exists w1. split; [exact H1 | exact H2].
  - split; [reflexivity|].
    exact (proj1 (B 0%nat eq_refl) (Some winA)).
Defined.

(** * Further properties of the code *)

(** ** The mouse checker *)

Lemma filter_fresh_interval (n : nat) (l : list nat) :
  Forall (fun i => (i < n)%nat) l ->
  filter (fun i => negb (Nat.eqb i n)) l = l.
Proof.
  induction 1 as [|a l Ha Hl IH]; simpl; [reflexivity|].
  destruct (Nat.eqb_spec a n) as [E|E]; [lia|]. simpl. now rewrite IH.
Qed.

(** [start()] called twice and [stop()] called once: [stop()] clears the
    second interval only, the first one keeps running, so the checker goes
    on sampling after [stop()]. *)
Theorem MouseChecker_double_start_leaks_interval (m : MouseChecker.t) :
  In (MouseChecker.nextInterval m)
     (MouseChecker.intervals
        (MouseChecker.stop (MouseChecker.start (MouseChecker.start m)))) /\
  MouseChecker.sampling
    (MouseChecker.stop (MouseChecker.start (MouseChecker.start m))) = true.
Proof.
  assert (H : In (MouseChecker.nextInterval m)
     (MouseChecker.intervals
        (MouseChecker.stop (MouseChecker.start (MouseChecker.start m))))).
  { unfold MouseChecker.stop, MouseChecker.start. simpl.
    apply filter_In. split.
    - apply in_or_app. left. apply in_or_app. right. now left.
    - apply negb_true_iff, Nat.eqb_neq. lia. }
  split; [exact H|].
  unfold MouseChecker.sampling.
  destruct (MouseChecker.intervals _); [contradiction | reflexivity].
Qed.

(** [start()] then [stop()] clears exactly the interval [start()] created:
    the live intervals and the retained sample are as before, and no handle
    is stored.  In particular a checker that was not sampling stops
    sampling, and the sample retained before [stop()] is compared again
    after a restart. *)
Theorem MouseChecker_stop_undoes_start (m : MouseChecker.t) :
  sampler_wf m ->
  MouseChecker.intervals (MouseChecker.stop (MouseChecker.start m))
    = MouseChecker.intervals m /\
  MouseChecker.mousePositionInterval (MouseChecker.stop (MouseChecker.start m))
    = None /\
  MouseChecker.lastMousePos (MouseChecker.stop (MouseChecker.start m))
    = MouseChecker.lastMousePos m /\
  sampler_wf (MouseChecker.stop (MouseChecker.start m)).
Proof.
  intro Hwf. unfold sampler_wf in *.
  unfold MouseChecker.stop, MouseChecker.start. simpl.
  assert (E : filter (fun i => negb (Nat.eqb i (MouseChecker.nextInterval m)))
                (MouseChecker.intervals m ++ [MouseChecker.nextInterval m])
              = MouseChecker.intervals m).
  { rewrite filter_app, (filter_fresh_interval _ _ Hwf). simpl.
    rewrite Nat.eqb_refl. simpl. apply app_nil_r. }
  rewrite E. repeat split.
  eapply Forall_impl; [|exact Hwf]. simpl. intros; lia.
Qed.

(** The three operations keep the handles of live intervals below the next
    handle, from the freshly constructed checker on. *)
Lemma sampler_wf_preserved (m : MouseChecker.t) :
  sampler_wf MouseChecker.create /\
  (sampler_wf m -> sampler_wf (MouseChecker.start m)) /\
  (sampler_wf m -> sampler_wf (MouseChecker.stop m)) /\
  (forall mousePos, sampler_wf m -> sampler_wf (fst (MouseChecker.tick mousePos m))).
Proof.
  unfold sampler_wf. split; [constructor|]. split; [|split].
  - intro H. simpl. apply Forall_app. split.
    + eapply Forall_impl; [|exact H]. simpl. intros; lia.
    + constructor; [lia | constructor].
  - intro H. unfold MouseChecker.stop.
    destruct (MouseChecker.mousePositionInterval m); [|exact H].
    simpl. now apply Forall_filter.
  - intros mousePos H. unfold MouseChecker.tick.
    destruct (MouseChecker.moved _ _); exact H.
Qed.

(** A move along one axis is never reported: while every cursor position
    shares its x or its y with the retained sample, no tick emits and the
    retained sample does not advance, however many ticks pass. *)
Theorem MouseChecker_axis_moves_never_reported
        (positions : list MouseChecker.Point) (m : MouseChecker.t)
        (l : MouseChecker.Point) :
  MouseChecker.lastMousePos m = Some l ->
  Forall (fun mousePos =>
            MouseChecker.x mousePos = MouseChecker.x l \/
            MouseChecker.y mousePos = MouseChecker.y l) positions ->
  ticks positions m = (m, 0%nat).
Proof.
  intros Hl HF. induction HF as [|mousePos rest Hp Hrest IH]; simpl; [reflexivity|].
  assert (E : MouseChecker.tick mousePos m = (m, false)).
  { unfold MouseChecker.tick, MouseChecker.moved. rewrite Hl.
    destruct Hp as [Hp|Hp]; rewrite Hp, Z.eqb_refl; simpl;
      rewrite ?andb_false_r; reflexivity. }
  rewrite E, IH. reflexivity.
Qed.

(** Two ticks in a row with the cursor at the same position: the second
    one never emits, whatever the first one did. *)
Theorem MouseChecker_same_position_not_reported_twice
        (mousePos : MouseChecker.Point) (m : MouseChecker.t) :
  snd (MouseChecker.tick mousePos (fst (MouseChecker.tick mousePos m))) = false.
Proof.
  unfold MouseChecker.tick at 2.
  destruct (MouseChecker.moved (MouseChecker.lastMousePos m) mousePos) eqn:E; simpl.
  - unfold MouseChecker.tick, MouseChecker.moved. simpl.
    now rewrite !Z.eqb_refl.
  - unfold MouseChecker.tick. now rewrite E.
Qed.

(** ** The monitor *)

Section MonitorFurther.

Context {Err : Type} {RV : RejectionValue Err}.

Implicit Types (w : World Err).

(** *** The three ways a resolved query is processed *)

Lemma check_then_closed r w :
  isUserAwake (monitor w) <> Some true -> check_then r w = emit_check w.
Proof.
  intro H. unfold check_then.
  pose proof (emit_check_fields w) as (_ & _ & HA & _). cbv zeta in HA.
  rewrite HA. destruct (isUserAwake (monitor w)) as [[|]|]; congruence.
Qed.

Lemma check_then_inactive w :
  isUserAwake (monitor w) = Some true ->
  check_then None w =
  emit (EvWindowInactive "Active window not detected.")
       (resetLastWindow (this (set_isUserAwake None) (emit_check w))).
Proof.
  intro H. unfold check_then.
  pose proof (emit_check_fields w) as (_ & _ & HA & _). cbv zeta in HA.
  now rewrite HA, H.
Qed.

Lemma check_then_window win lw w :
  isUserAwake (monitor w) = Some true ->
  lastWindow (monitor w) = Some lw ->
  check_then (Some win) w =
  this (set_lastError emptyObject)
    (if activeWindowOrUrlChanged win lw then
       this (set_lastWindow (Some win))
         (if activeWindowChanged win lw
          then emit (EvWindowChange win)
                 (emit (EvWindowOrUrlChange win)
                    (this (set_isUserAwake None) (emit_check w)))
          else emit (EvWindowOrUrlChange win)
                 (this (set_isUserAwake None) (emit_check w)))
     else this (set_isUserAwake None) (emit_check w)).
Proof.
  intros HA HL. unfold check_then.
  pose proof (emit_check_fields w) as (_ & HW & HG & _). cbv zeta in HW, HG.
  rewrite HG, HA. cbv zeta.
  change (lastWindow (monitor (this (set_isUserAwake None) (emit_check w))))
    with (lastWindow (monitor (emit_check w))).
  now rewrite HW, HL.
Qed.

Lemma check_then_undefined win w :
  isUserAwake (monitor w) = Some true ->
  lastWindow (monitor w) = None ->
  check_then (Some win) w =
  check_catch typeError (this (set_isUserAwake None) (emit_check w)).
Proof.
  intros HA HL. unfold check_then.
  pose proof (emit_check_fields w) as (_ & HW & HG & _). cbv zeta in HW, HG.
  rewrite HG, HA. cbv zeta.
  change (lastWindow (monitor (this (set_isUserAwake None) (emit_check w))))
    with (lastWindow (monitor (emit_check w))).
  now rewrite HW, HL.
Qed.

(** The fields after the [catch] block. *)
Lemma check_catch_fields e w :
  currentState (monitor (check_catch e w)) = Some START /\
  isUserAwake (monitor (check_catch e w)) = None /\
  lastWindow (monitor (check_catch e w)) = Some sentinel /\
  idleTimeout (monitor (check_catch e w)) = idleTimeout (monitor w).
Proof.
  unfold check_catch.
  pose proof (emit_check_fields (setDefaults w)) as (HS & HW & HA & HI & _).
  pose proof (setDefaults_fields w) as (HS' & HA' & HW' & _ & _ & HI' & _).
  cbv zeta in *. rewrite HS' in HS. rewrite HW' in HW. rewrite HA' in HA.
  rewrite HI' in HI.
  destruct (serial_differs _ _); repeat split; assumption.
Qed.

Lemma run_monitor w : monitor (run w) = monitor w.
Proof. unfold run. destruct (is_START _); reflexivity. Qed.

Lemma stop_monitor w :
  monitor (stop w) = set_currentState (Some STOP) (monitor w).
Proof.
  unfold stop. cbv zeta.
  set (w1 := this (set_currentState (Some STOP)) w).
  set (w2 := clearTimeout (checkTimeout (monitor w1)) w1).
  destruct (clearTimeout_frame (idleTimeout (monitor w2)) w2) as (_ & _ & M3).
  destruct (clearTimeout_frame (checkTimeout (monitor w1)) w1) as (_ & _ & M2).
  fold w2 in M2.
  change (monitor (clearTimeout (idleTimeout (monitor w2)) w2)
          = set_currentState (Some STOP) (monitor w)).
  now rewrite M3, M2.
Qed.

Lemma start_monitor w : monitor (start w) = monitor (setDefaults w).
Proof.
  unfold start. cbv zeta.
  change (monitor (run (with_mouseChecker MouseChecker.start (setDefaults w)))
          = monitor (setDefaults w)).
  now rewrite run_monitor.
Qed.

Lemma awakeUser_gate w : isUserAwake (monitor (awakeUser w)) = Some true.
Proof.
  unfold awakeUser.
  destruct (isUserAwake (monitor w)) as [[|]|] eqn:G; [exact G | |];
    simpl; destruct (idleTimeout (monitor w)); reflexivity.
Qed.

(** *** One report per activity signal *)

Lemma settlement_closes_gate i w w' :
  is_settlement i = true -> step w i = Some w' ->
  isUserAwake (monitor w') <> Some true.
Proof.
  intros Hi Hstep. destruct i; try discriminate Hi; simpl in Hstep;
    destruct (outstanding w) as [|n]; try discriminate Hstep;
    injection Hstep as <-.
  - set (w1 := set_outstanding n w).
    destruct (isUserAwake (monitor w1)) as [[|]|] eqn:G.
    + destruct activeWinResult as [win|].
      * destruct (lastWindow (monitor w1)) as [lw|] eqn:L.
        -- rewrite (check_then_window win lw w1 G L).
           destruct (activeWindowOrUrlChanged win lw);
             [destruct (activeWindowChanged win lw)|]; simpl; discriminate.
        -- rewrite (check_then_undefined win w1 G L).
           destruct (check_catch_fields typeError
                       (this (set_isUserAwake None) (emit_check w1))) as (_ & H & _).
           rewrite H. discriminate.
      * rewrite (check_then_inactive w1 G). simpl. discriminate.
    + rewrite check_then_closed by (rewrite G; discriminate).
      pose proof (emit_check_fields w1) as (_ & _ & HA & _). cbv zeta in HA.
      rewrite HA, G. discriminate.
    + rewrite check_then_closed by (rewrite G; discriminate).
      pose proof (emit_check_fields w1) as (_ & _ & HA & _). cbv zeta in HA.
      rewrite HA, G. discriminate.
  - destruct (check_catch_fields error (set_outstanding n w)) as (_ & H & _).
    rewrite H. discriminate.
Qed.

Lemma gate_stays_closed i w w' :
  isUserAwake (monitor w) <> Some true ->
  is_mouse i = false -> step w i = Some w' ->
  isUserAwake (monitor w') <> Some true.
Proof.
  intros HG Hi Hstep. destruct i; try discriminate Hi.
  - injection Hstep as <-. rewrite start_monitor.
    destruct (setDefaults_fields w) as (_ & H & _). rewrite H. discriminate.
  - injection Hstep as <-. rewrite stop_monitor. exact HG.
  - injection Hstep as <-. exact HG.
  - simpl in Hstep.
    destruct (find (has_handle h) (timers w)) as [t|]; [|discriminate].
    injection Hstep as <-. destruct (callback t); simpl.
    + rewrite run_monitor. exact HG.
    + unfold idleUser. cbv zeta. destruct (is_START _); simpl; discriminate.
  - now apply (settlement_closes_gate (QueryResolves activeWinResult) w w').
  - now apply (settlement_closes_gate (QueryRejects error) w w').
Qed.

Lemma gate_stays_closed_exec inputs : forall w w',
  isUserAwake (monitor w) <> Some true ->
  forallb (fun i => negb (is_mouse i)) inputs = true ->
  exec w inputs = Some w' ->
  isUserAwake (monitor w') <> Some true.
Proof.
  induction inputs as [|i rest IH]; intros w w' HG Hq He; simpl in *.
  - now injection He as <-.
  - apply andb_true_iff in Hq. destruct Hq as [Hq1 Hq2].
    apply negb_true_iff in Hq1.
    destruct (step w i) as [w1|] eqn:Hstep; [|discriminate].
    apply (IH w1 w'); [now apply (gate_stays_closed i w) | exact Hq2 | exact He].
Qed.

(** Each activity signal is consumed by one settlement.  After a query has
    settled (resolved or rejected), and as long as no 'mousemove' arrives,
    every later resolution emits 'check' and nothing else, whatever window it
    returns and whatever calls and timers came in between. *)
Theorem no_report_without_new_activity i w w1 inputs w2 r w3 :
  is_settlement i = true ->
  step w i = Some w1 ->
  forallb (fun i => negb (is_mouse i)) inputs = true ->
  exec w1 inputs = Some w2 ->
  step w2 (QueryResolves r) = Some w3 ->
  emitted w3 = emitted w2 ++ [EvCheck].
Proof.
  intros Hi H1 Hq H2 H3.
  pose proof (settlement_closes_gate i w w1 Hi H1) as G1.
  pose proof (gate_stays_closed_exec inputs w1 w2 G1 Hq H2) as G2.
  simpl in H3. destruct (outstanding w2) as [|n]; [discriminate|].
  injection H3 as <-.
  rewrite check_then_closed by exact G2.
  now rewrite emit_check_emitted.
Qed.

(** *** Comparison with the sentinel *)

Lemma changed_against_sentinel win :
  activeWindowChanged win sentinel = negb (ActiveWindow.id win =? -1) /\
  activeWindowOrUrlChanged win sentinel =
    (match ActiveWindow.url win with Some _ => true | None => false end
     || negb (ActiveWindow.id win =? -1)).
Proof.
  unfold activeWindowChanged, activeWindowOrUrlChanged. simpl.
  destruct (ActiveWindow.url win); split; reflexivity.
Qed.

Lemma report_against_sentinel win w :
  isUserAwake (monitor w) = Some true ->
  lastWindow (monitor w) = Some sentinel ->
  ActiveWindow.id win <> -1 ->
  emitted (check_then (Some win) w) =
    emitted w ++ [EvCheck; EvWindowOrUrlChange win; EvWindowChange win] /\
  lastWindow (monitor (check_then (Some win) w)) = Some win.
Proof.
  intros HA HL Hid.
  rewrite (check_then_window win sentinel w HA HL).
  destruct (changed_against_sentinel win) as [E1' E2]. rewrite E1', E2.
  apply Z.eqb_neq in Hid. rewrite Hid. simpl. rewrite orb_true_r.
  split; [|reflexivity].
  simpl. rewrite emit_check_emitted, <- !app_assoc. reflexivity.
Qed.

(** After any reset of the last-known window (by [start()], by the idle
    timer, by a rejection, by a "no window" result) the stored window is the
    sentinel.  A window whose id is not -1 is then reported with both
    events.  A window with id -1 is never reported as a window change: with
    no url nothing is emitted after 'check' and the sentinel stays; with a
    url only 'windoworurlchange' is emitted. *)
Theorem first_window_after_reset w n win :
  outstanding w = S n ->
  isUserAwake (monitor w) = Some true ->
  lastWindow (monitor w) = Some sentinel ->
  exists w',
    step w (QueryResolves (Some win)) = Some w' /\
    (ActiveWindow.id win <> -1 ->
       emitted w' = emitted w ++ [EvCheck; EvWindowOrUrlChange win; EvWindowChange win] /\
       lastWindow (monitor w') = Some win) /\
    (ActiveWindow.id win = -1 -> ActiveWindow.url win = None ->
       emitted w' = emitted w ++ [EvCheck] /\
       lastWindow (monitor w') = Some sentinel) /\
    (ActiveWindow.id win = -1 -> ActiveWindow.url win <> None ->
       emitted w' = emitted w ++ [EvCheck; EvWindowOrUrlChange win] /\
       lastWindow (monitor w') = Some win).
Proof.
  intros Hout HA HL. simpl. rewrite Hout.
  eexists; split; [reflexivity|].
  set (w1 := set_outstanding n w).
  assert (HA1 : isUserAwake (monitor w1) = Some true) by exact HA.
  assert (HL1 : lastWindow (monitor w1) = Some sentinel) by exact HL.
  split; [|split].
  - intro Hid. exact (report_against_sentinel win w1 HA1 HL1 Hid).
  - intros Hid Hurl. rewrite (check_then_window win sentinel w1 HA1 HL1).
    destruct (changed_against_sentinel win) as [_ E2]. rewrite E2, Hurl, Hid.
    simpl. rewrite emit_check_emitted.
    pose proof (emit_check_fields w1) as (_ & HW & _). cbv zeta in HW.
    rewrite HW. split; [reflexivity | exact HL].
  - intros Hid Hurl. rewrite (check_then_window win sentinel w1 HA1 HL1).
    destruct (changed_against_sentinel win) as [E1' E2]. rewrite E1', E2, Hid.
    destruct (ActiveWindow.url win); [|congruence]. simpl.
    rewrite emit_check_emitted, <- !app_assoc. split; reflexivity.
Qed.

(** *** A window is reported once *)

Lemma stored_window_after_resolution win lw w :
  isUserAwake (monitor w) = Some true ->
  lastWindow (monitor w) = Some lw ->
  exists x,
    lastWindow (monitor (check_then (Some win) w)) = Some x /\
    ActiveWindow.id x = ActiveWindow.id win /\
    ActiveWindow.url x = ActiveWindow.url win.
Proof.
  intros HA HL. rewrite (check_then_window win lw w HA HL).
  destruct (activeWindowOrUrlChanged win lw) eqn:C.
  - exists win. simpl. repeat split.
  - exists lw. simpl.
    pose proof (emit_check_fields w) as (_ & HW & _). cbv zeta in HW.
    rewrite HW. split; [exact HL|].
    unfold activeWindowOrUrlChanged in C. apply orb_false_iff in C.
    destruct C as [Cu Ci]. split.
    + apply negb_false_iff, Z.eqb_eq in Ci. congruence.
    + destruct (ActiveWindow.url win) as [u|] eqn:U,
               (ActiveWindow.url lw) as [v|] eqn:V; simpl in Cu;
        try discriminate; [|reflexivity].
      apply negb_false_iff, String.eqb_eq in Cu. congruence.
Qed.

Lemma no_change_no_event win lw w :
  lastWindow (monitor w) = Some lw ->
  ActiveWindow.id win = ActiveWindow.id lw ->
  ActiveWindow.url win = ActiveWindow.url lw ->
  emitted (check_then (Some win) w) = emitted w ++ [EvCheck] /\
  lastWindow (monitor (check_then (Some win) w)) = Some lw.
Proof.
  intros HL Hid Hurl.
  pose proof (emit_check_fields w) as (_ & HW & _). cbv zeta in HW.
  destruct (isUserAwake (monitor w)) as [[|]|] eqn:G.
  - rewrite (check_then_window win lw w G HL).
    assert (C : activeWindowOrUrlChanged win lw = false).
    { unfold activeWindowOrUrlChanged. rewrite Hid, Hurl, Z.eqb_refl.
      destruct (ActiveWindow.url lw); simpl; [|reflexivity].
      now rewrite String.eqb_refl. }
    rewrite C. simpl. rewrite emit_check_emitted, HW. split; [reflexivity | exact HL].
  - rewrite check_then_closed by (rewrite G; discriminate).
    rewrite emit_check_emitted, HW. split; [reflexivity | exact HL].
  - rewrite check_then_closed by (rewrite G; discriminate).
    rewrite emit_check_emitted, HW. split; [reflexivity | exact HL].
Qed.

(** Once a window has been processed while the gate was Awake, a later
    query returning a window with the same id and the same url emits no
    change event, as long as the last-known window has not been reset in
    between; a different title, owner or geometry does not count as a
    change. *)
Theorem same_window_reported_once w n win lw w1 w2 win2 w3 :
  outstanding w = S n ->
  isUserAwake (monitor w) = Some true ->
  lastWindow (monitor w) = Some lw ->
  step w (QueryResolves (Some win)) = Some w1 ->
  lastWindow (monitor w2) = lastWindow (monitor w1) ->
  ActiveWindow.id win2 = ActiveWindow.id win ->
  ActiveWindow.url win2 = ActiveWindow.url win ->
  step w2 (QueryResolves (Some win2)) = Some w3 ->
  emitted w3 = emitted w2 ++ [EvCheck].
Proof.
  intros Hout HA HL H1 Hkeep Hid Hurl H3.
  simpl in H1. rewrite Hout in H1. injection H1 as <-.
  destruct (stored_window_after_resolution win lw (set_outstanding n w) HA HL)
    as (x & Hx & Hxi & Hxu).
  rewrite Hx in Hkeep.
  simpl in H3. destruct (outstanding w2) as [|k]; [discriminate|].
  injection H3 as <-.
  apply (no_change_no_event win2 x (set_outstanding k w2) Hkeep); congruence.
Qed.

(** *** The remembered error between settlements *)

Lemma option_eq_or_serial (a b : option string) : a = b \/ a <> b.
Proof.
  destruct a as [u|], b as [v|]; try (right; discriminate); [|now left].
  destruct (String.eqb_spec u v) as [E|E]; [left | right]; congruence.
Qed.

Lemma awakeUser_frame w :
  lastError (monitor (awakeUser w)) = lastError (monitor w) /\
  lastWindow (monitor (awakeUser w)) = lastWindow (monitor w) /\
  currentState (monitor (awakeUser w)) = currentState (monitor w) /\
  outstanding (awakeUser w) = outstanding w /\
  onceCheck (awakeUser w) = onceCheck w /\
  emitted (awakeUser w) =
    emitted w ++
    match isUserAwake (monitor w) with Some false => [EvAwake] | _ => [] end.
Proof.
  unfold awakeUser.
  destruct (isUserAwake (monitor w)) as [[|]|]; simpl;
    destruct (idleTimeout (monitor w)); simpl; rewrite ?app_nil_r; repeat split.
Qed.

Lemma idleUser_effect w :
  isUserAwake (monitor (idleUser w)) = Some false /\
  lastWindow (monitor (idleUser w)) = Some sentinel /\
  lastError (monitor (idleUser w)) = lastError (monitor w) /\
  currentState (monitor (idleUser w)) = currentState (monitor w) /\
  outstanding (idleUser w) = outstanding w /\
  mousemoveListener (idleUser w) = mousemoveListener w /\
  emitted (idleUser w) =
    emitted w ++ (if is_START (currentState (monitor w)) then [EvIdle] else []).
Proof.
  unfold idleUser. cbv zeta. simpl.
  destruct (is_START (currentState (monitor w))); simpl; rewrite ?app_nil_r;
    repeat split.
Qed.

(** Only a settlement assigns [lastError]. *)
Lemma lastError_step i w w' :
  is_settlement i = false -> step w i = Some w' ->
  lastError (monitor w') = lastError (monitor w).
Proof.
  intros Hi Hstep. destruct i; try discriminate Hi; simpl in Hstep.
  - injection Hstep as <-. rewrite start_monitor.
    now destruct (setDefaults_fields w) as (_ & _ & _ & H & _).
  - injection Hstep as <-. now rewrite stop_monitor.
  - injection Hstep as <-. reflexivity.
  - injection Hstep as <-. unfold deliver_mousemove.
    destruct (mousemoveListener w); [|reflexivity].
    now destruct (awakeUser_frame w) as (H & _).
  - destruct (MouseChecker.sampling _); [|discriminate].
    destruct (MouseChecker.tick mousePos (mouseChecker w)) as [mc moved].
    injection Hstep as <-. destruct moved; [|reflexivity].
    unfold deliver_mousemove. simpl mousemoveListener.
    destruct (mousemoveListener w); [|reflexivity].
    now destruct (awakeUser_frame (with_mouseChecker (fun _ => mc) w)) as (H & _).
  - destruct (find (has_handle h) (timers w)) as [t|]; [|discriminate].
    injection Hstep as <-. destruct (callback t); simpl.
    + now rewrite run_monitor.
    + now destruct (idleUser_effect (clearTimeout (Some h) w)) as (_ & _ & H & _).
Qed.

Lemma lastError_exec inputs : forall w w',
  forallb (fun i => negb (is_settlement i)) inputs = true ->
  exec w inputs = Some w' ->
  lastError (monitor w') = lastError (monitor w).
Proof.
  induction inputs as [|i rest IH]; intros w w' Hq He; simpl in *.
  - now injection He as <-.
  - apply andb_true_iff in Hq. destruct Hq as [Hq1 Hq2].
    apply negb_false_iff in Hq1. rewrite negb_involutive in Hq1.
    destruct (step w i) as [w1|] eqn:Hstep; [|discriminate].
    rewrite (IH w1 w' Hq2 He). now apply (lastError_step i).
Qed.

(** A persistent failure is reported once.  When a query has rejected with
    [e], the next rejection with [e] emits 'check' and no 'error', whatever
    calls ([start()], [stop()], [destroy()]), notifications and timers came
    in between, provided no other query settled in between. *)
Theorem repeated_rejection_reported_once w e w1 inputs w2 w3 :
  step w (QueryRejects e) = Some w1 ->
  forallb (fun i => negb (is_settlement i)) inputs = true ->
  exec w1 inputs = Some w2 ->
  step w2 (QueryRejects e) = Some w3 ->
  emitted w3 = emitted w2 ++ [EvCheck].
Proof.
  intros H1 Hq H2 H3.
  assert (HS : stringify e = stringify (lastError (monitor w1))).
  { simpl in H1. destruct (outstanding w) as [|n]; [discriminate|].
    injection H1 as <-. rewrite check_catch_lastError.
    destruct (serial_differs _ _) eqn:D; [reflexivity|].
    destruct (option_eq_or_serial (stringify e)
                (stringify (lastError (monitor (set_outstanding n w))))) as [E|E];
      [exact E|].
    apply serial_differs_spec in E. congruence. }
  rewrite <- (lastError_exec inputs w1 w2 Hq H2) in HS.
  simpl in H3. destruct (outstanding w2) as [|k]; [discriminate|].
  injection H3 as <-. rewrite check_catch_emitted.
  change (lastError (monitor (set_outstanding k w2))) with (lastError (monitor w2)).
  destruct (serial_differs _ _) eqn:D; [|reflexivity].
  apply serial_differs_spec in D. congruence.
Qed.

(** *** The idle timer *)

Lemma idle_timer_step w h t :
  find (has_handle h) (timers w) = Some t -> callback t = IdleUser ->
  step w (TimerFires h) = Some (idleUser (clearTimeout (Some h) w)).
Proof. intros Hf Cb. simpl. now rewrite Hf, Cb. Qed.

(** When the idle timer fires the gate becomes Idle and the last-known
    window is reset, whether or not the monitor is RUNNING; 'idle' is
    emitted only if it is RUNNING.  The next 'mousemove' then emits 'awake'
    and opens the gate: in a stopped monitor 'awake' is emitted although no
    'idle' was. *)
Theorem idle_timer_then_mousemove w h t :
  find (has_handle h) (timers w) = Some t -> callback t = IdleUser ->
  mousemoveListener w = true ->
  exists w1 w2,
    step w (TimerFires h) = Some w1 /\
    emitted w1 =
      emitted w ++ (if is_START (currentState (monitor w)) then [EvIdle] else []) /\
    isUserAwake (monitor w1) = Some false /\
    lastWindow (monitor w1) = Some sentinel /\
    step w1 MouseMove = Some w2 /\
    emitted w2 = emitted w1 ++ [EvAwake] /\
    isUserAwake (monitor w2) = Some true /\
    lastWindow (monitor w2) = Some sentinel.
Proof.
  intros Hf Cb HL.
  set (w0 := clearTimeout (Some h) w).
  destruct (idleUser_effect w0) as (A1 & A2 & _ & _ & _ & A6 & A7).
  destruct (awakeUser_frame (idleUser w0)) as (_ & B2 & _ & _ & _ & B6).
  exists (idleUser w0), (awakeUser (idleUser w0)).
  split; [exact (idle_timer_step w h t Hf Cb)|].
  split; [exact A7|]. split; [exact A1|]. split; [exact A2|].
  split.
  { simpl. unfold deliver_mousemove. rewrite A6.
    change (mousemoveListener w0) with (mousemoveListener w). now rewrite HL. }
  split; [now rewrite B6, A1|].
  split; [apply awakeUser_gate | now rewrite B2].
Qed.

(** After an idle period the window in focus is reported again, even if it
    is the window that was last reported: the idle timer fires, the user
    moves the mouse, and the outstanding query resolves with any window whose
    id is not -1. *)
Theorem window_reported_again_after_idle w n h t win :
  find (has_handle h) (timers w) = Some t -> callback t = IdleUser ->
  mousemoveListener w = true ->
  outstanding w = S n ->
  ActiveWindow.id win <> -1 ->
  exists w3,
    exec w [TimerFires h; MouseMove; QueryResolves (Some win)] = Some w3 /\
    emitted w3 =
      emitted w ++
      (if is_START (currentState (monitor w)) then [EvIdle] else []) ++
      [EvAwake; EvCheck; EvWindowOrUrlChange win; EvWindowChange win] /\
    lastWindow (monitor w3) = Some win.
Proof.
  intros Hf Cb HL Hout Hid.
  set (w0 := clearTimeout (Some h) w).
  destruct (idleUser_effect w0) as (A1 & A2 & _ & _ & A5 & A6 & A7).
  destruct (awakeUser_frame (idleUser w0)) as (_ & B2 & _ & B4 & _ & B6).
  set (w2 := awakeUser (idleUser w0)) in *.
  assert (O2 : outstanding w2 = S n).
  { rewrite B4, A5. exact Hout. }
  assert (S1 : step w (TimerFires h) = Some (idleUser w0))
    by exact (idle_timer_step w h t Hf Cb).
  assert (S2 : step (idleUser w0) MouseMove = Some w2).
  { simpl. unfold deliver_mousemove. rewrite A6.
    change (mousemoveListener w0) with (mousemoveListener w). now rewrite HL. }
  assert (G2 : isUserAwake (monitor (set_outstanding n w2)) = Some true)
    by apply awakeUser_gate.
  assert (L2 : lastWindow (monitor (set_outstanding n w2)) = Some sentinel).
  { change (lastWindow (monitor w2) = Some sentinel). now rewrite B2. }
  destruct (report_against_sentinel win (set_outstanding n w2) G2 L2 Hid) as [R1 R2].
  exists (check_then (Some win) (set_outstanding n w2)).
  split.
  - unfold exec. rewrite S1, S2. unfold step. rewrite O2. reflexivity.
  - split; [|exact R2].
    rewrite R1.
    change (emitted (set_outstanding n w2)) with (emitted w2).
    rewrite B6, A1, A7.
    change (emitted w0) with (emitted w).
    change (currentState (monitor w0)) with (currentState (monitor w)).
    rewrite <- !app_assoc. reflexivity.
Qed.

(** *** [lastWindow] is assigned before it is read *)

Lemma check_then_lastWindow r w lw :
  lastWindow (monitor w) = Some lw ->
  exists x, lastWindow (monitor (check_then r w)) = Some x.
Proof.
  intro HL.
  pose proof (emit_check_fields w) as (_ & HW & _). cbv zeta in HW.
  destruct (isUserAwake (monitor w)) as [[|]|] eqn:G.
  - destruct r as [win|].
    + rewrite (check_then_window win lw w G HL).
      destruct (activeWindowOrUrlChanged win lw).
      * exists win. reflexivity.
      * exists lw. simpl. now rewrite HW.
    + rewrite (check_then_inactive w G). exists sentinel. reflexivity.
  - rewrite check_then_closed by (rewrite G; discriminate).
    exists lw. now rewrite HW.
  - rewrite check_then_closed by (rewrite G; discriminate).
    exists lw. now rewrite HW.
Qed.

Lemma lastWindow_assigned_step i w w' :
  lastWindow_assigned w -> step w i = Some w' -> lastWindow_assigned w'.
Proof.
  unfold lastWindow_assigned. intros HI Hstep. destruct i; simpl in Hstep.
  - injection Hstep as <-. rewrite start_monitor.
    destruct (setDefaults_fields w) as (_ & _ & H & _). rewrite H. discriminate.
  - injection Hstep as <-. rewrite stop_monitor. intro HN.
    destruct (stop_frame w) as [_ HO]. rewrite HO.
    split; [apply HI; exact HN | reflexivity].
  - injection Hstep as <-. exact HI.
  - injection Hstep as <-. unfold deliver_mousemove.
    destruct (mousemoveListener w); [|exact HI].
    destruct (awakeUser_frame w) as (_ & A2 & A3 & A4 & _).
    rewrite A2, A3, A4. exact HI.
  - destruct (MouseChecker.sampling _); [|discriminate].
    destruct (MouseChecker.tick mousePos (mouseChecker w)) as [mc moved].
    injection Hstep as <-. destruct moved; [|exact HI].
    unfold deliver_mousemove. simpl mousemoveListener.
    destruct (mousemoveListener w); [|exact HI].
    destruct (awakeUser_frame (with_mouseChecker (fun _ => mc) w))
      as (_ & A2 & A3 & A4 & _).
    rewrite A2, A3, A4. exact HI.
  - destruct (find (has_handle h) (timers w)) as [t|]; [|discriminate].
    injection Hstep as <-. destruct (callback t); unfold call.
    + rewrite run_monitor. unfold run. intro HN.
      destruct (HI HN) as [H0 HS].
      match goal with
      | |- context [if ?c then _ else _] =>
          change c with (is_START (currentState (monitor w)))
      end.
      rewrite HS. split; [exact H0 | reflexivity].
    + match goal with
      | |- context [idleUser ?W] =>
          destruct (idleUser_effect W) as (_ & A2 & _)
      end.
      rewrite A2. discriminate.
  - destruct (outstanding w) as [|n] eqn:HO; [discriminate|].
    injection Hstep as <-.
    destruct (lastWindow (monitor w)) as [lw|] eqn:HL.
    + destruct (check_then_lastWindow activeWinResult (set_outstanding n w) lw HL)
        as [x Hx].
      rewrite Hx. discriminate.
    + destruct (HI eq_refl) as [H0 _]. discriminate H0.
  - destruct (outstanding w) as [|n]; [discriminate|].
    injection Hstep as <-.
    destruct (check_catch_fields error (set_outstanding n w)) as (_ & _ & H & _).
    rewrite H. discriminate.
Qed.

Lemma lastWindow_assigned_exec inputs : forall w w',
  lastWindow_assigned w -> exec w inputs = Some w' -> lastWindow_assigned w'.
Proof.
  induction inputs as [|i rest IH]; intros w w' HI He; simpl in *.
  - now injection He as <-.
  - destruct (step w i) as [w1|] eqn:Hstep; [|discriminate].
    apply (IH w1 w'); [now apply (lastWindow_assigned_step i w) | exact He].
Qed.

Lemma lastWindow_assigned_create mc ci ia :
  lastWindow_assigned (create mc ci ia).
Proof. intros _. split; reflexivity. Qed.

(** In every run from a freshly constructed monitor, with no restriction
    on the calls, the last-known window has been assigned whenever a query
    is outstanding or the monitor is RUNNING: the comparison in [check()]
    never reads a property of [undefined]. *)
Theorem lastWindow_defined_when_read mc ci ia inputs w :
  exec (create mc ci ia) inputs = Some w ->
  (0 < outstanding w)%nat \/ currentState (monitor w) = Some START ->
  exists lw, lastWindow (monitor w) = Some lw.
Proof.
  intros He Hc.
  pose proof (lastWindow_assigned_exec inputs _ w
                (lastWindow_assigned_create mc ci ia) He) as HI.
  destruct (lastWindow (monitor w)) as [lw|] eqn:HL; [now exists lw|].
  destruct (HI HL) as [H0 HS]. destruct Hc as [Hc|Hc]; [lia|].
  rewrite Hc in HS. discriminate.
Qed.

(** *** The events of one iteration, in order *)

Lemma check_then_events r w lw :
  lastWindow (monitor w) = Some lw ->
  exists evs,
    emitted (check_then r w) = emitted w ++ EvCheck :: evs /\
    resolution_events r evs.
Proof.
  intro HL. unfold resolution_events.
  destruct (isUserAwake (monitor w)) as [[|]|] eqn:G.
  - destruct r as [win|].
    + rewrite (check_then_window win lw w G HL).
      destruct (activeWindowOrUrlChanged win lw);
        [destruct (activeWindowChanged win lw)|].
      * exists [EvWindowOrUrlChange win; EvWindowChange win]. split.
        -- simpl. rewrite emit_check_emitted, <- !app_assoc. reflexivity.
        -- right; right. exists win. split; [reflexivity | now right].
      * exists [EvWindowOrUrlChange win]. split.
        -- simpl. rewrite emit_check_emitted, <- !app_assoc. reflexivity.
        -- right; right. exists win. split; [reflexivity | now left].
      * exists []. split; [|now left]. simpl. now rewrite emit_check_emitted.
    + rewrite (check_then_inactive w G).
      exists [EvWindowInactive "Active window not detected."]. split.
      * simpl. rewrite emit_check_emitted, <- !app_assoc. reflexivity.
      * right; left. now split.
  - rewrite check_then_closed by (rewrite G; discriminate).
    exists []. split; [now rewrite emit_check_emitted | now left].
  - rewrite check_then_closed by (rewrite G; discriminate).
    exists []. split; [now rewrite emit_check_emitted | now left].
Qed.

(** In every run from a freshly constructed monitor, a resolving query
    emits 'check' exactly once and first, followed by nothing, or by
    'windowinactive' alone (when no window was returned), or by
    'windoworurlchange' with the returned window, or by 'windoworurlchange'
    and then 'windowchange' with that same window. *)
Theorem resolution_emits_in_order mc ci ia inputs w r w' :
  exec (create mc ci ia) inputs = Some w ->
  step w (QueryResolves r) = Some w' ->
  exists evs,
    emitted w' = emitted w ++ EvCheck :: evs /\
    resolution_events r evs.
Proof.
  intros He Hstep.
  pose proof (lastWindow_assigned_exec inputs _ w
                (lastWindow_assigned_create mc ci ia) He) as HI.
  simpl in Hstep. destruct (outstanding w) as [|n] eqn:HO; [discriminate|].
  injection Hstep as <-.
  destruct (lastWindow (monitor w)) as [lw|] eqn:HL.
  - exact (check_then_events r (set_outstanding n w) lw HL).
  - destruct (HI HL) as [H0 _]. rewrite HO in H0. discriminate.
Qed.

(** *** At most one idle timer *)

Lemma filter_all {A} (l : list A) : filter (fun _ => true) l = l.
Proof. induction l as [|a l IH]; simpl; [reflexivity | now rewrite IH]. Qed.

Lemma filter_filter {A} (f g : A -> bool) (l : list A) :
  filter g (filter f l) = filter (fun a => f a && g a) l.
Proof.
  induction l as [|a l IH]; simpl; [reflexivity|].
  destruct (f a); simpl; [destruct (g a)|]; now rewrite IH.
Qed.


Lemma idle_kept_same w w' :
  timers w' = timers w -> idleTimeout (monitor w') = idleTimeout (monitor w) ->
  idle_kept w w'.
Proof.
  intros E1 E2. split; [|exact E2]. exists (fun _ => true).
  unfold idle_timers. now rewrite E1, filter_all.
Qed.

Lemma idle_kept_trans w1 w2 w3 :
  idle_kept w1 w2 -> idle_kept w2 w3 -> idle_kept w1 w3.
Proof.
  intros [[f Hf] E1] [[g Hg] E2]. split; [|congruence].
  exists (fun a => f a && g a). now rewrite Hg, Hf, filter_filter.
Qed.

Lemma idle_kept_clearTimeout h w : idle_kept w (clearTimeout h w).
Proof.
  destruct h as [n|]; [|apply idle_kept_same; reflexivity].
  split; [|reflexivity]. exists (other_handle n).
  unfold idle_timers. simpl. apply filter_swap.
Qed.

Lemma idle_kept_call_listeners n : forall w, idle_kept w (call_listeners n w).
Proof.
  induction n as [|n IH]; intro w; simpl.
  - apply idle_kept_same; reflexivity.
  - apply (idle_kept_trans w (arm_next_run w)); [|apply IH].
    split; [|reflexivity]. exists (fun _ => true).
    unfold idle_timers. simpl. rewrite filter_app, filter_all. simpl.
    apply app_nil_r.
Qed.

Lemma idle_kept_emit_check w : idle_kept w (emit_check w).
Proof.
  unfold emit_check.
  apply (idle_kept_trans w (set_onceCheck 0%nat (emit EvCheck w)));
    [apply idle_kept_same; reflexivity | apply idle_kept_call_listeners].
Qed.

Lemma idle_kept_setDefaults w : idle_kept w (setDefaults w).
Proof.
  unfold setDefaults. cbv zeta.
  set (w3 := resetLastWindow _).
  apply (idle_kept_trans w w3); [apply idle_kept_same; reflexivity|].
  apply idle_kept_clearTimeout.
Qed.

Lemma idle_kept_check_catch e w : idle_kept w (check_catch e w).
Proof.
  unfold check_catch. cbv zeta.
  assert (H : idle_kept w (emit_check (setDefaults w))).
  { apply (idle_kept_trans w (setDefaults w));
      [apply idle_kept_setDefaults | apply idle_kept_emit_check]. }
  destruct (serial_differs _ _); [|exact H].
  apply (idle_kept_trans _ _ _ H). apply idle_kept_same; reflexivity.
Qed.

Lemma idle_kept_check_then r w : idle_kept w (check_then r w).
Proof.
  pose proof (idle_kept_emit_check w) as H.
  destruct (isUserAwake (monitor w)) as [[|]|] eqn:G;
    try (rewrite check_then_closed by (rewrite G; discriminate); exact H).
  destruct r as [win|].
  - destruct (lastWindow (monitor w)) as [lw|] eqn:L.
    + rewrite (check_then_window win lw w G L).
      apply (idle_kept_trans _ _ _ H).
      destruct (activeWindowOrUrlChanged win lw);
        [destruct (activeWindowChanged win lw)|];
        apply idle_kept_same; reflexivity.
    + rewrite (check_then_undefined win w G L).
      apply (idle_kept_trans _ _ _ H).
      apply (idle_kept_trans _ (this (set_isUserAwake None) (emit_check w)));
        [apply idle_kept_same; reflexivity | apply idle_kept_check_catch].
  - rewrite (check_then_inactive w G).
    apply (idle_kept_trans _ _ _ H). apply idle_kept_same; reflexivity.
Qed.

Lemma idle_kept_run w : idle_kept w (run w).
Proof. unfold run. destruct (is_START _); apply idle_kept_same; reflexivity. Qed.

Lemma idle_kept_start w : idle_kept w (start w).
Proof.
  unfold start. cbv zeta.
  apply (idle_kept_trans w (setDefaults w)); [apply idle_kept_setDefaults|].
  set (w2 := with_mouseChecker MouseChecker.start (setDefaults w)).
  apply (idle_kept_trans _ w2); [apply idle_kept_same; reflexivity|].
  apply (idle_kept_trans _ (run w2)); [apply idle_kept_run|].
  apply idle_kept_same; reflexivity.
Qed.

Lemma idle_kept_idleUser w : idle_kept w (idleUser w).
Proof.
  unfold idleUser. cbv zeta.
  destruct (is_START _); apply idle_kept_same; reflexivity.
Qed.

Lemma idle_inv_kept w w' : idle_kept w w' -> idle_inv w -> idle_inv w'.
Proof.
  intros [[f Hf] E] [H1 H2]. unfold idle_inv. rewrite Hf, E. split.
  - pose proof (filter_length_le f (idle_timers w)). lia.
  - now apply Forall_filter.
Qed.

(** Cancelling the timer [idleTimeout] names leaves no idle timer. *)
Lemma idle_timers_cleared w :
  idle_inv w -> idle_timers (clearTimeout (idleTimeout (monitor w)) w) = [].
Proof.
  intros [_ HF].
  destruct (idleTimeout (monitor w)) as [n|]; simpl.
  - change (idle_timers (clearTimeout (Some n) w) = []).
    destruct (idle_kept_clearTimeout (Some n) w) as [_ _].
    unfold idle_timers in *. simpl. rewrite filter_swap.
    induction HF as [|t l Ht Hl IH]; simpl; [reflexivity|].
    injection Ht as ->. unfold other_handle at 1. now rewrite Nat.eqb_refl.
  - destruct HF as [|t l Ht _]; [reflexivity | discriminate Ht].
Qed.

Lemma idle_inv_awakeUser w : idle_inv w -> idle_inv (awakeUser w).
Proof.
  intro HI. unfold awakeUser.
  assert (G : forall w1, idle_inv w1 ->
    idle_inv
      (let w2 := this (set_isUserAwake (Some true)) w1 in
       let w3 := clearTimeout (idleTimeout (monitor w2)) w2 in
       let (h, w4) := setTimeout IdleUser (idleAfter (monitor w3)) w3 in
       this (set_idleTimeout (Some h)) w4)).
  { intros w1 H1. cbv zeta.
    set (w2 := this (set_isUserAwake (Some true)) w1).
    assert (H2 : idle_inv w2)
      by (revert H1; apply idle_inv_kept, idle_kept_same; reflexivity).
    pose proof (idle_timers_cleared w2 H2) as HC.
    set (w3 := clearTimeout (idleTimeout (monitor w2)) w2) in *.
    unfold idle_inv, idle_timers in *. simpl.
    rewrite filter_app, HC. simpl. split; [lia|]. repeat constructor. }
  destruct (isUserAwake (monitor w)) as [[|]|]; [exact HI | |now apply G].
  apply G. revert HI. apply idle_inv_kept, idle_kept_same; reflexivity.
Qed.

Lemma idle_inv_stop w : idle_inv w -> idle_timers (stop w) = [] /\ idle_inv (stop w).
Proof.
  intro HI. unfold stop. cbv zeta.
  set (w1 := this (set_currentState (Some STOP)) w).
  set (w2 := clearTimeout (checkTimeout (monitor w1)) w1).
  assert (H2 : idle_inv w2).
  { apply (idle_inv_kept w); [|exact HI].
    apply (idle_kept_trans w w1);
      [apply idle_kept_same; reflexivity | apply idle_kept_clearTimeout]. }
  pose proof (idle_timers_cleared w2 H2) as HC.
  set (w3 := clearTimeout (idleTimeout (monitor w2)) w2) in *.
  assert (E : idle_timers (emit EvStop (with_mouseChecker MouseChecker.stop w3)) = [])
    by exact HC.
  split; [exact E|]. unfold idle_inv. rewrite E. split; [simpl; lia | constructor].
Qed.

Lemma idle_inv_step i w w' : idle_inv w -> step w i = Some w' -> idle_inv w'.
Proof.
  intros HI Hstep. destruct i; simpl in Hstep.
  - injection Hstep as <-. exact (idle_inv_kept _ _ (idle_kept_start w) HI).
  - injection Hstep as <-. exact (proj2 (idle_inv_stop w HI)).
  - injection Hstep as <-. revert HI. apply idle_inv_kept, idle_kept_same; reflexivity.
  - injection Hstep as <-. unfold deliver_mousemove.
    destruct (mousemoveListener w); [now apply idle_inv_awakeUser | exact HI].
  - destruct (MouseChecker.sampling _); [|discriminate].
    destruct (MouseChecker.tick mousePos (mouseChecker w)) as [mc moved].
    injection Hstep as <-.
    assert (H1 : idle_inv (with_mouseChecker (fun _ => mc) w))
      by (revert HI; apply idle_inv_kept, idle_kept_same; reflexivity).
    destruct moved; [|exact H1]. unfold deliver_mousemove.
    destruct (mousemoveListener _); [now apply idle_inv_awakeUser | exact H1].
  - destruct (find (has_handle h) (timers w)) as [t|]; [|discriminate].
    injection Hstep as <-.
    pose proof (idle_inv_kept _ _ (idle_kept_clearTimeout (Some h) w) HI) as H1.
    destruct (callback t); unfold call.
    + exact (idle_inv_kept _ _ (idle_kept_run _) H1).
    + exact (idle_inv_kept _ _ (idle_kept_idleUser _) H1).
  - destruct (outstanding w) as [|n]; [discriminate|]. injection Hstep as <-.
    apply (idle_inv_kept (set_outstanding n w)); [apply idle_kept_check_then|].
    revert HI. apply idle_inv_kept, idle_kept_same; reflexivity.
  - destruct (outstanding w) as [|n]; [discriminate|]. injection Hstep as <-.
    apply (idle_inv_kept (set_outstanding n w)); [apply idle_kept_check_catch|].
    revert HI. apply idle_inv_kept, idle_kept_same; reflexivity.
Qed.

Lemma idle_inv_exec inputs : forall w w',
  idle_inv w -> exec w inputs = Some w' -> idle_inv w'.
Proof.
  induction inputs as [|i rest IH]; intros w w' HI He; simpl in *.
  - now injection He as <-.
  - destruct (step w i) as [w1|] eqn:Hstep; [|discriminate].
    apply (IH w1 w'); [now apply (idle_inv_step i w) | exact He].
Qed.

(** In every run from a freshly constructed monitor, with no restriction
    on the calls, at most one idle timer is pending, and it is the one
    [idleTimeout] names; so [stop()] leaves no idle timer pending. *)
Theorem at_most_one_idle_timer mc ci ia inputs w :
  exec (create mc ci ia) inputs = Some w ->
  (List.length (idle_timers w) <= 1)%nat /\
  Forall (fun t => idleTimeout (monitor w) = Some (handle t)) (idle_timers w) /\
  idle_timers (stop w) = [].
Proof.
  intro He.
  assert (H0 : idle_inv (create mc ci ia)).
  { unfold idle_inv, idle_timers. simpl. split; [lia | constructor]. }
  pose proof (idle_inv_exec inputs _ w H0 He) as HI.
  destruct HI as [H1 H2]. split; [exact H1|]. split; [exact H2|].
  exact (proj1 (idle_inv_stop w (conj H1 H2))).
Qed.

(** *** Timer handles *)


Lemma timers_kept_same w w' :
  timers w' = timers w -> nextHandle w' = nextHandle w ->
  idleTimeout (monitor w') = idleTimeout (monitor w) ->
  timers_kept w w'.
Proof.
  intros E1 E2 E3. split; [|now split]. exists (fun _ => true).
  now rewrite E1, filter_all.
Qed.

Lemma timers_kept_trans w1 w2 w3 :
  timers_kept w1 w2 -> timers_kept w2 w3 -> timers_kept w1 w3.
Proof.
  intros ([f Hf] & A1 & B1) ([g Hg] & A2 & B2).
  split; [|split; congruence].
  exists (fun a => f a && g a). now rewrite Hg, Hf, filter_filter.
Qed.

Lemma timers_kept_clearTimeout h w : timers_kept w (clearTimeout h w).
Proof.
  destruct h as [n|]; [|apply timers_kept_same; reflexivity].
  split; [|now split]. now exists (other_handle n).
Qed.

Lemma timers_kept_setDefaults w : timers_kept w (setDefaults w).
Proof.
  unfold setDefaults. cbv zeta. set (w3 := resetLastWindow _).
  apply (timers_kept_trans w w3); [apply timers_kept_same; reflexivity|].
  apply timers_kept_clearTimeout.
Qed.

Lemma timers_kept_run w : timers_kept w (run w).
Proof. unfold run. destruct (is_START _); apply timers_kept_same; reflexivity. Qed.

Lemma timers_kept_start w : timers_kept w (start w).
Proof.
  unfold start. cbv zeta.
  apply (timers_kept_trans w (setDefaults w)); [apply timers_kept_setDefaults|].
  set (w2 := with_mouseChecker MouseChecker.start (setDefaults w)).
  apply (timers_kept_trans _ w2); [apply timers_kept_same; reflexivity|].
  apply (timers_kept_trans _ (run w2)); [apply timers_kept_run|].
  apply timers_kept_same; reflexivity.
Qed.

Lemma timers_kept_stop w : timers_kept w (stop w).
Proof.
  unfold stop. cbv zeta.
  set (w1 := this (set_currentState (Some STOP)) w).
  set (w2 := clearTimeout (checkTimeout (monitor w1)) w1).
  set (w3 := clearTimeout (idleTimeout (monitor w2)) w2).
  apply (timers_kept_trans w w1); [apply timers_kept_same; reflexivity|].
  apply (timers_kept_trans w1 w2); [apply timers_kept_clearTimeout|].
  apply (timers_kept_trans w2 w3); [apply timers_kept_clearTimeout|].
  apply timers_kept_same; reflexivity.
Qed.

Lemma timers_kept_idleUser w : timers_kept w (idleUser w).
Proof.
  unfold idleUser. cbv zeta.
  destruct (is_START _); apply timers_kept_same; reflexivity.
Qed.

Lemma handles_inv_kept w w' : timers_kept w w' -> handles_inv w -> handles_inv w'.
Proof.
  intros ([f Hf] & EN & EI) (H1 & H2 & H3 & H4). unfold handles_inv.
  rewrite Hf, EN, EI. repeat split.
  - now apply Forall_filter.
  - exact H2.
  - intros t1 t2 I1 I2. apply filter_In in I1, I2. apply H3; tauto.
  - intros t I. apply filter_In in I. apply H4; tauto.
Qed.

Lemma handles_inv_arm_next_run w : handles_inv w -> handles_inv (arm_next_run w).
Proof.
  intros (H1 & H2 & H3 & H4). unfold handles_inv, arm_next_run. simpl.
  assert (B : forall t, In t (timers w) -> (handle t < nextHandle w)%nat)
    by (apply Forall_forall; exact H1).
  repeat split.
  - apply Forall_app. split.
    + eapply Forall_impl; [|exact H1]. simpl. intros; lia.
    + constructor; [simpl; lia | constructor].
  - intros h Hh. specialize (H2 h Hh). lia.
  - intros t1 t2 I1 I2 E. apply in_app_or in I1, I2.
    destruct I1 as [I1|[<-|[]]], I2 as [I2|[<-|[]]].
    + now apply H3.
    + simpl in E. specialize (B t1 I1). lia.
    + simpl in E. specialize (B t2 I2). lia.
    + reflexivity.
  - intros t I E. apply in_app_or in I. destruct I as [I|[<-|[]]].
    + now apply H4.
    + simpl in E. specialize (H2 _ E). lia.
Qed.

Lemma handles_inv_call_listeners n : forall w,
  handles_inv w -> handles_inv (call_listeners n w).
Proof.
  induction n as [|n IH]; intros w H; simpl; [exact H|].
  apply IH. now apply handles_inv_arm_next_run.
Qed.

Lemma handles_inv_emit_check w : handles_inv w -> handles_inv (emit_check w).
Proof.
  intro H. unfold emit_check. apply handles_inv_call_listeners.
  revert H. apply handles_inv_kept, timers_kept_same; reflexivity.
Qed.

Lemma handles_inv_check_catch e w : handles_inv w -> handles_inv (check_catch e w).
Proof.
  intro H. unfold check_catch. cbv zeta.
  assert (H1 : handles_inv (emit_check (setDefaults w))).
  { apply handles_inv_emit_check.
    exact (handles_inv_kept _ _ (timers_kept_setDefaults w) H). }
  destruct (serial_differs _ _); [|exact H1].
  revert H1. apply handles_inv_kept, timers_kept_same; reflexivity.
Qed.

Lemma handles_inv_check_then r w : handles_inv w -> handles_inv (check_then r w).
Proof.
  intro H0. pose proof (handles_inv_emit_check w H0) as H.
  destruct (isUserAwake (monitor w)) as [[|]|] eqn:G;
    try (rewrite check_then_closed by (rewrite G; discriminate); exact H).
  destruct r as [win|].
  - destruct (lastWindow (monitor w)) as [lw|] eqn:L.
    + rewrite (check_then_window win lw w G L).
      revert H. apply handles_inv_kept.
      destruct (activeWindowOrUrlChanged win lw);
        [destruct (activeWindowChanged win lw)|];
        apply timers_kept_same; reflexivity.
    + rewrite (check_then_undefined win w G L).
      apply handles_inv_check_catch.
      revert H. apply handles_inv_kept, timers_kept_same; reflexivity.
  - rewrite (check_then_inactive w G).
    revert H. apply handles_inv_kept, timers_kept_same; reflexivity.
Qed.

Lemma handles_inv_awakeUser w : handles_inv w -> handles_inv (awakeUser w).
Proof.
  intro HI. unfold awakeUser.
  assert (G : forall w1, handles_inv w1 ->
    handles_inv
      (let w2 := this (set_isUserAwake (Some true)) w1 in
       let w3 := clearTimeout (idleTimeout (monitor w2)) w2 in
       let (h, w4) := setTimeout IdleUser (idleAfter (monitor w3)) w3 in
       this (set_idleTimeout (Some h)) w4)).
  { intros w1 H1. cbv zeta.
    set (w2 := this (set_isUserAwake (Some true)) w1).
    assert (H2 : handles_inv w2)
      by (revert H1; apply handles_inv_kept, timers_kept_same; reflexivity).
    pose proof (handles_inv_kept _ _
                  (timers_kept_clearTimeout (idleTimeout (monitor w2)) w2) H2) as H3.
    set (w3 := clearTimeout (idleTimeout (monitor w2)) w2) in *.
    destruct H3 as (A1 & A2 & A3 & A4).
    assert (B : forall t, In t (timers w3) -> (handle t < nextHandle w3)%nat)
      by (apply Forall_forall; exact A1).
    unfold handles_inv. simpl. repeat split.
    - apply Forall_app. split.
      + eapply Forall_impl; [|exact A1]. simpl. intros; lia.
      + constructor; [simpl; lia | constructor].
    - intros h Hh. injection Hh as <-. lia.
    - intros t1 t2 I1 I2 E. apply in_app_or in I1, I2.
      destruct I1 as [I1|[<-|[]]], I2 as [I2|[<-|[]]].
      + now apply A3.
      + simpl in E. specialize (B t1 I1). lia.
      + simpl in E. specialize (B t2 I2). lia.
      + reflexivity.
    - intros t I E. apply in_app_or in I. destruct I as [I|[<-|[]]].
      + injection E as E. specialize (B t I). lia.
      + reflexivity. }
  destruct (isUserAwake (monitor w)) as [[|]|]; [exact HI | |now apply G].
  apply G. revert HI. apply handles_inv_kept, timers_kept_same; reflexivity.
Qed.

Lemma handles_inv_step i w w' : handles_inv w -> step w i = Some w' -> handles_inv w'.
Proof.
  intros HI Hstep. destruct i; simpl in Hstep.
  - injection Hstep as <-. exact (handles_inv_kept _ _ (timers_kept_start w) HI).
  - injection Hstep as <-. exact (handles_inv_kept _ _ (timers_kept_stop w) HI).
  - injection Hstep as <-. revert HI.
    apply handles_inv_kept, timers_kept_same; reflexivity.
  - injection Hstep as <-. unfold deliver_mousemove.
    destruct (mousemoveListener w); [now apply handles_inv_awakeUser | exact HI].
  - destruct (MouseChecker.sampling _); [|discriminate].
    destruct (MouseChecker.tick mousePos (mouseChecker w)) as [mc moved].
    injection Hstep as <-.
    assert (H1 : handles_inv (with_mouseChecker (fun _ => mc) w))
      by (revert HI; apply handles_inv_kept, timers_kept_same; reflexivity).
    destruct moved; [|exact H1]. unfold deliver_mousemove.
    destruct (mousemoveListener _); [now apply handles_inv_awakeUser | exact H1].
  - destruct (find (has_handle h) (timers w)) as [t|]; [|discriminate].
    injection Hstep as <-.
    pose proof (handles_inv_kept _ _ (timers_kept_clearTimeout (Some h) w) HI) as H1.
    destruct (callback t); unfold call.
    + exact (handles_inv_kept _ _ (timers_kept_run _) H1).
    + exact (handles_inv_kept _ _ (timers_kept_idleUser _) H1).
  - destruct (outstanding w) as [|n]; [discriminate|]. injection Hstep as <-.
    apply handles_inv_check_then.
    revert HI. apply handles_inv_kept, timers_kept_same; reflexivity.
  - destruct (outstanding w) as [|n]; [discriminate|]. injection Hstep as <-.
    apply handles_inv_check_catch.
    revert HI. apply handles_inv_kept, timers_kept_same; reflexivity.
Qed.

Lemma handles_inv_create mc ci ia : handles_inv (create mc ci ia).
Proof.
  unfold handles_inv. simpl. repeat split; try constructor;
    try discriminate; intros; contradiction.
Qed.

(** *** The check loop of a running monitor stays alive *)

Lemma start_counters w :
  outstanding (start w) = S (outstanding w) /\
  onceCheck (start w) = S (onceCheck w) /\
  currentState (monitor (start w)) = Some START.
Proof.
  pose proof (setDefaults_fields w)
    as (HS & _ & _ & _ & _ & _ & _ & _ & _ & HO & HC & _).
  split; [|split].
  - unfold start, run. simpl. rewrite HS. simpl. now rewrite HO.
  - unfold start, run. simpl. rewrite HS. simpl. now rewrite HC.
  - rewrite start_monitor. exact HS.
Qed.

Lemma stop_onceCheck w : onceCheck (stop w) = onceCheck w.
Proof.
  unfold stop. cbv zeta.
  set (w1 := this (set_currentState (Some STOP)) w).
  set (w2 := clearTimeout (checkTimeout (monitor w1)) w1).
  change (onceCheck (clearTimeout (idleTimeout (monitor w2)) w2) = onceCheck w).
  destruct (idleTimeout (monitor w2)); simpl; subst w2;
    destruct (checkTimeout (monitor w1)); reflexivity.
Qed.

Lemma filter_keeps {A} (f : A -> bool) (l : list A) :
  (forall a, In a l -> f a = true) -> filter f l = l.
Proof.
  induction l as [|a l IH]; intro H; simpl; [reflexivity|].
  rewrite (H a (or_introl eq_refl)). rewrite IH; [reflexivity|].
  intros b Hb. apply H. now right.
Qed.

Lemma run_timers_In t w :
  In t (run_timers w) <-> In t (timers w) /\ callback t = Run.
Proof.
  unfold run_timers. rewrite filter_In. destruct (callback t); split;
    intros [H1 H2]; split; auto; discriminate.
Qed.

(** [awakeUser] cancels no timer of the check loop. *)
Lemma awakeUser_run_timers w :
  handles_inv w -> run_timers (awakeUser w) = run_timers w.
Proof.
  intros (_ & _ & _ & H4). unfold awakeUser.
  assert (G : forall w1, timers w1 = timers w ->
              idleTimeout (monitor w1) = idleTimeout (monitor w) ->
    run_timers
      (let w2 := this (set_isUserAwake (Some true)) w1 in
       let w3 := clearTimeout (idleTimeout (monitor w2)) w2 in
       let (h, w4) := setTimeout IdleUser (idleAfter (monitor w3)) w3 in
       this (set_idleTimeout (Some h)) w4) = run_timers w).
  { intros w1 ET EI. cbv zeta.
    set (w2 := this (set_isUserAwake (Some true)) w1).
    set (w3 := clearTimeout (idleTimeout (monitor w2)) w2).
    change (run_timers (snd (setTimeout IdleUser (idleAfter (monitor w3)) w3))
            = run_timers w).
    rewrite setTimeout_IdleUser_run_timers. subst w3.
    rewrite clearTimeout_run_timers.
    change (idleTimeout (monitor w2)) with (idleTimeout (monitor w1)).
    assert (ER : run_timers w2 = run_timers w)
      by (unfold run_timers; simpl; now rewrite ET).
    rewrite ER, EI.
    destruct (idleTimeout (monitor w)) as [n|] eqn:EN; [|reflexivity].
    apply filter_keeps. intros t Ht. apply run_timers_In in Ht.
    destruct Ht as [Hin Hcb]. unfold other_handle.
    apply negb_true_iff, Nat.eqb_neq. intro E.
    assert (callback t = IdleUser) by (apply H4; [exact Hin | congruence]).
    congruence. }
  destruct (isUserAwake (monitor w)) as [[|]|]; [reflexivity | |];
    apply G; reflexivity.
Qed.

(** Firing an idle timer cancels no timer of the check loop. *)
Lemma idle_fire_run_timers w h t :
  handles_inv w ->
  find (has_handle h) (timers w) = Some t -> callback t = IdleUser ->
  run_timers (clearTimeout (Some h) w) = run_timers w.
Proof.
  intros (_ & _ & H3 & _) Hf Cb. apply find_has_handle in Hf.
  destruct Hf as [Hin Hh]. rewrite clearTimeout_run_timers.
  apply filter_keeps. intros t' Ht'. apply run_timers_In in Ht'.
  destruct Ht' as [Hin' Hcb']. unfold other_handle.
  apply negb_true_iff, Nat.eqb_neq. intro E.
  assert (callback t' = callback t) by (apply H3; congruence).
  congruence.
Qed.

Lemma check_catch_onceCheck e w : onceCheck (check_catch e w) = 0%nat.
Proof.
  unfold check_catch. cbv zeta.
  pose proof (emit_check_onceCheck (setDefaults w)) as H.
  destruct (serial_differs _ _); exact H.
Qed.

Lemma check_then_onceCheck r w : onceCheck (check_then r w) = 0%nat.
Proof.
  pose proof (emit_check_onceCheck w) as H.
  destruct (isUserAwake (monitor w)) as [[|]|] eqn:G;
    try (rewrite check_then_closed by (rewrite G; discriminate); exact H).
  destruct r as [win|].
  - destruct (lastWindow (monitor w)) as [lw|] eqn:L.
    + rewrite (check_then_window win lw w G L).
      destruct (activeWindowOrUrlChanged win lw);
        [destruct (activeWindowChanged win lw)|]; exact H.
    + rewrite (check_then_undefined win w G L). apply check_catch_onceCheck.
  - rewrite (check_then_inactive w G). exact H.
Qed.


Lemma alive_from_token w :
  loop_inv w -> onceCheck w = outstanding w ->
  (is_START (currentState (monitor w)) = true -> token w) ->
  alive_inv w.
Proof.
  intros HL HC HT. split; [exact HL|]. split; [exact HC|].
  intro HS. destruct HL as (H1 & _). destruct (HT HS) as [H|H]; [lia|].
  destruct (run_timers w); [congruence | simpl in *; lia].
Qed.

Lemma alive_token w :
  alive_inv w -> is_START (currentState (monitor w)) = true -> token w.
Proof.
  intros (_ & _ & H) HS. specialize (H HS). unfold token.
  destruct (run_timers w); simpl in H; [left; lia | right; discriminate].
Qed.

Lemma alive_step i w w' :
  alive_inv w -> handles_inv w -> lastWindow_assigned w ->
  start_settled w i = true -> is_CallDestroy i = false ->
  step w i = Some w' -> alive_inv w'.
Proof.
  intros HA HH HW Hs Hd Hstep.
  pose proof HA as (HL & HC & _).
  pose proof (loop_inv_step w i w' HL Hs Hstep) as HL'.
  apply alive_from_token; [exact HL'| |]; clear HL';
    destruct i; try discriminate Hd; simpl in Hstep.
  - (* start, the counters *)
    injection Hstep as <-. destruct (start_counters w) as (A & B & _). congruence.
  - injection Hstep as <-. destruct (stop_frame w) as [_ A].
    rewrite stop_onceCheck, A. exact HC.
  - injection Hstep as <-. unfold deliver_mousemove.
    destruct (mousemoveListener w); [|exact HC].
    destruct (awakeUser_frame w) as (_ & _ & _ & A & B & _). congruence.
  - destruct (MouseChecker.sampling _); [|discriminate].
    destruct (MouseChecker.tick mousePos (mouseChecker w)) as [mc moved].
    injection Hstep as <-. destruct moved; [|exact HC].
    unfold deliver_mousemove. simpl mousemoveListener.
    destruct (mousemoveListener w); [|exact HC].
    destruct (awakeUser_frame (with_mouseChecker (fun _ => mc) w))
      as (_ & _ & _ & A & B & _).
    rewrite A, B. exact HC.
  - destruct (find (has_handle h) (timers w)) as [t|] eqn:Hf; [|discriminate].
    injection Hstep as <-. destruct (callback t); unfold call.
    + unfold run.
      match goal with
      | |- context [if ?c then _ else _] => destruct c
      end; simpl; [now rewrite HC | exact HC].
    + unfold idleUser. cbv zeta.
      match goal with
      | |- context [if ?c then _ else _] => destruct c
      end; exact HC.
  - destruct (outstanding w) as [|n] eqn:HO; [discriminate|].
    injection Hstep as <-. rewrite check_then_onceCheck.
    destruct (check_then_counters activeWinResult (set_outstanding n w)) as [_ B].
    rewrite B. simpl. destruct HL as (H1 & _). lia.
  - destruct (outstanding w) as [|n] eqn:HO; [discriminate|].
    injection Hstep as <-. rewrite check_catch_onceCheck.
    destruct (check_catch_counters error (set_outstanding n w)) as [_ B].
    rewrite B. simpl. destruct HL as (H1 & _). lia.
  - (* start, the token *)
    injection Hstep as <-. intros _. left.
    destruct (start_counters w) as (A & _). lia.
  - injection Hstep as <-. rewrite stop_monitor. discriminate.
  - injection Hstep as <-. unfold deliver_mousemove.
    destruct (mousemoveListener w); [|exact (alive_token w HA)].
    destruct (awakeUser_frame w) as (_ & _ & A & B & _).
    rewrite A. intro HS. unfold token.
    rewrite B, (awakeUser_run_timers w HH). exact (alive_token w HA HS).
  - destruct (MouseChecker.sampling _); [|discriminate].
    destruct (MouseChecker.tick mousePos (mouseChecker w)) as [mc moved].
    injection Hstep as <-.
    destruct moved; [|exact (alive_token w HA)].
    unfold deliver_mousemove. simpl mousemoveListener.
    destruct (mousemoveListener w); [|exact (alive_token w HA)].
    set (w1 := with_mouseChecker (fun _ => mc) w).
    destruct (awakeUser_frame w1) as (_ & _ & A & B & _).
    rewrite A. intro HS. unfold token.
    rewrite B, (awakeUser_run_timers w1 HH). exact (alive_token w HA HS).
  - destruct (find (has_handle h) (timers w)) as [t|] eqn:Hf; [|discriminate].
    injection Hstep as <-. destruct (callback t) eqn:Cb; unfold call.
    + rewrite run_monitor. intro HS. left. unfold run.
      match goal with
      | |- context [if ?c then _ else _] =>
          change c with (is_START (currentState (monitor w)))
      end.
      change (is_START (currentState (monitor w)) = true) in HS.
      rewrite HS. simpl. lia.
    + match goal with
      | |- context [idleUser ?W] =>
          destruct (idleUser_effect W) as (_ & _ & _ & A & B & _);
          assert (C : run_timers (idleUser W) = run_timers W)
            by (unfold idleUser; cbv zeta; destruct (is_START _); reflexivity)
      end.
      rewrite A. intro HS. unfold token. rewrite B, C.
      change (run_timers (set_timers (filter (other_handle h) (timers w)) w))
        with (run_timers (clearTimeout (Some h) w)).
      rewrite (idle_fire_run_timers w h t HH Hf Cb).
      exact (alive_token w HA HS).
  - destruct (outstanding w) as [|n] eqn:HO; [discriminate|].
    injection Hstep as <-. intros _. right.
    assert (Hn : n = 0%nat) by (destruct HL as (H1 & _); rewrite HO in H1; lia).
    subst n.
    destruct (lastWindow (monitor w)) as [lw|] eqn:L.
    + assert (HT := check_then_timers activeWinResult (set_outstanding 0%nat w) lw).
      simpl in HT. specialize (HT HC L).
      intro E.
      assert (HIn : In (next_run_timer (nextHandle w) w)
                       (run_timers (check_then activeWinResult (set_outstanding 0%nat w)))).
      { apply run_timers_In. split; [|reflexivity].
        rewrite HT. apply in_or_app. right. now left. }
      rewrite E in HIn. exact HIn.
    + destruct (HW L) as [H0 _]. rewrite HO in H0. discriminate.
  - destruct (outstanding w) as [|n] eqn:HO; [discriminate|].
    injection Hstep as <-. intros _. right. intro E.
    assert (Hn : n = 0%nat) by (destruct HL as (H1 & _); rewrite HO in H1; lia).
    subst n.
    assert (HIn : In (next_run_timer (nextHandle w) w)
                     (run_timers (check_catch error (set_outstanding 0%nat w)))).
    { apply run_timers_In. split; [|reflexivity].
      exact (check_catch_timers error (set_outstanding 0%nat w) HC). }
    rewrite E in HIn. exact HIn.
Qed.

Lemma alive_exec inputs : forall w w',
  alive_inv w -> handles_inv w -> lastWindow_assigned w ->
  starts_when_settled w inputs = true ->
  forallb (fun i => negb (is_CallDestroy i)) inputs = true ->
  exec w inputs = Some w' ->
  alive_inv w' /\ handles_inv w'.
Proof.
  induction inputs as [|i rest IH]; intros w w' HA HH HW Hs Hd He; simpl in *.
  - injection He as <-. now split.
  - apply andb_true_iff in Hs. destruct Hs as [Hs1 Hs2].
    apply andb_true_iff in Hd. destruct Hd as [Hd1 Hd2].
    apply negb_true_iff in Hd1.
    destruct (step w i) as [w1|] eqn:Hstep; [|discriminate].
    apply (IH w1 w'); try assumption.
    + now apply (alive_step i w).
    + now apply (handles_inv_step i w).
    + now apply (lastWindow_assigned_step i w).
Qed.

Lemma alive_inv_create mc ci ia : alive_inv (create mc ci ia).
Proof.
  split; [apply loop_inv_create|]. split; [reflexivity|]. discriminate.
Qed.

Lemma find_exists {A} (f : A -> bool) (l : list A) a :
  In a l -> f a = true -> exists b, find f l = Some b.
Proof.
  induction l as [|c l IH]; intros Hin Hf; [contradiction|]. simpl.
  destruct (f c) eqn:Ec; [now exists c|].
  destruct Hin as [->|Hin]; [congruence | now apply IH].
Qed.

(** A RUNNING monitor never loses its check loop.  In every run from a
    freshly constructed monitor in which [start()] is only called while no
    query is outstanding and [destroy()] is not called, a monitor in state
    RUNNING has either exactly one query outstanding, with the listener that
    will arm the next timer registered, or no query outstanding and exactly
    one check timer pending, the one [checkTimeout] names, whose firing
    issues the next query. *)
Theorem running_loop_stays_alive mc ci ia inputs w :
  starts_when_settled (create mc ci ia) inputs = true ->
  forallb (fun i => negb (is_CallDestroy i)) inputs = true ->
  exec (create mc ci ia) inputs = Some w ->
  currentState (monitor w) = Some START ->
  (outstanding w = 1%nat /\ onceCheck w = 1%nat /\ run_timers w = []) \/
  (outstanding w = 0%nat /\
   exists t,
     run_timers w = [t] /\
     checkTimeout (monitor w) = Some (handle t) /\
     exists w',
       step w (TimerFires (handle t)) = Some w' /\
       outstanding w' = 1%nat /\ onceCheck w' = 1%nat).
Proof.
  intros Hs Hd He HS.
  destruct (alive_exec inputs _ w (alive_inv_create mc ci ia)
              (handles_inv_create mc ci ia) (lastWindow_assigned_create mc ci ia)
              Hs Hd He) as [HA HH].
  destruct HA as ((H1 & H2 & H3) & HC & HT).
  assert (HS' : is_START (currentState (monitor w)) = true) by now rewrite HS.
  specialize (HT HS').
  destruct (run_timers w) as [|t [|t2 l]] eqn:Ert; simpl in H1, HT.
  - left. repeat split; lia.
  - right. split; [lia|]. exists t. split; [reflexivity|].
    split; [now inversion H3|].
    assert (Hin : In t (run_timers w)) by (rewrite Ert; now left).
    apply run_timers_In in Hin. destruct Hin as [Hin Hcb].
    destruct (find_exists (has_handle (handle t)) (timers w) t Hin
                (Nat.eqb_refl _)) as [t' Hf].
    pose proof (find_has_handle _ _ _ Hf) as [Hin' Hh'].
    destruct HH as (_ & _ & H3' & _).
    assert (Cb' : callback t' = Run) by (rewrite <- Hcb; now apply H3').
    exists (run (clearTimeout (Some (handle t)) w)). split.
    + simpl. now rewrite Hf, Cb'.
    + unfold run.
      change (is_START (currentState (monitor (clearTimeout (Some (handle t)) w))))
        with (is_START (currentState (monitor w))).
      rewrite HS'. simpl. split; lia.
  - lia.
Qed.

(** *** A monitor stopped between two iterations is at rest *)

Lemma stop_run_timers w : loop_inv w -> run_timers (stop w) = [].
Proof.
  intros (_ & _ & H3). unfold stop. cbv zeta.
  set (w1 := this (set_currentState (Some STOP)) w).
  set (w2 := clearTimeout (checkTimeout (monitor w1)) w1).
  change (run_timers (clearTimeout (idleTimeout (monitor w2)) w2) = []).
  assert (E2 : run_timers w2 = []).
  { subst w2. rewrite clearTimeout_run_timers.
    change (checkTimeout (monitor w1)) with (checkTimeout (monitor w)).
    change (run_timers w1) with (run_timers w).
    destruct (checkTimeout (monitor w)) as [n|].
    - induction H3 as [|t l Ht Hl IH]; simpl; [reflexivity|].
      injection Ht as ->. unfold other_handle at 1. now rewrite Nat.eqb_refl.
    - destruct H3 as [|t l Ht _]; [reflexivity | discriminate Ht]. }
  rewrite clearTimeout_run_timers, E2. now destruct (idleTimeout (monitor w2)).
Qed.

Lemma rest_step i w w' :
  loop_ended w -> is_START (currentState (monitor w)) = false ->
  is_CallStart i = false -> step w i = Some w' ->
  is_START (currentState (monitor w')) = false /\
  exists evs, emitted w' = emitted w ++ evs /\ forallb stop_or_awake evs = true.
Proof.
  intros HE HS Hi Hstep. destruct i; try discriminate Hi; simpl in Hstep.
  - injection Hstep as <-. rewrite stop_monitor. split; [reflexivity|].
    exists [EvStop]. split; [exact (proj1 (stop_frame w)) | reflexivity].
  - injection Hstep as <-. split; [exact HS|]. exists [].
    split; [symmetry; apply app_nil_r | reflexivity].
  - injection Hstep as <-. unfold deliver_mousemove.
    destruct (mousemoveListener w).
    + destruct (awakeUser_frame w) as (_ & _ & A & _ & _ & B).
      rewrite A. split; [exact HS|]. eexists. split; [exact B|].
      destruct (isUserAwake (monitor w)) as [[|]|]; reflexivity.
    + split; [exact HS|]. exists [].
      split; [symmetry; apply app_nil_r | reflexivity].
  - destruct (MouseChecker.sampling _); [|discriminate].
    destruct (MouseChecker.tick mousePos (mouseChecker w)) as [mc moved].
    injection Hstep as <-.
    assert (N : is_START (currentState (monitor (with_mouseChecker (fun _ => mc) w)))
                = false /\
                exists evs, emitted (with_mouseChecker (fun _ => mc) w)
                            = emitted w ++ evs /\ forallb stop_or_awake evs = true).
    { split; [exact HS|]. exists [].
      split; [symmetry; apply app_nil_r | reflexivity]. }
    destruct moved; [|exact N]. unfold deliver_mousemove. simpl mousemoveListener.
    destruct (mousemoveListener w); [|exact N].
    set (w1 := with_mouseChecker (fun _ => mc) w).
    destruct (awakeUser_frame w1) as (_ & _ & A & _ & _ & B).
    rewrite A. split; [exact HS|]. eexists. split; [exact B|].
    destruct (isUserAwake (monitor w1)) as [[|]|]; reflexivity.
  - destruct (find (has_handle h) (timers w)) as [t|] eqn:Hf; [|discriminate].
    injection Hstep as <-. apply find_has_handle in Hf. destruct Hf as [Hin _].
    destruct (callback t) eqn:Cb; unfold call.
    + exfalso. destruct HE as (_ & HR).
      assert (Hrt : In t (run_timers w)) by (apply run_timers_In; now split).
      rewrite HR in Hrt. exact Hrt.
    + match goal with
      | |- context [idleUser ?W] =>
          destruct (idleUser_effect W) as (_ & _ & _ & A & _ & _ & B)
      end.
      rewrite A. split; [exact HS|]. eexists. split; [exact B|].
      change (is_START (currentState
                (monitor (set_timers (filter (other_handle h) (timers w)) w))))
        with (is_START (currentState (monitor w))).
      now rewrite HS.
  - destruct HE as (HO & _). rewrite HO in Hstep. discriminate.
  - destruct HE as (HO & _). rewrite HO in Hstep. discriminate.
Qed.

Lemma rest_exec inputs : forall w w',
  loop_ended w -> is_START (currentState (monitor w)) = false ->
  forallb (fun i => negb (is_CallStart i)) inputs = true ->
  exec w inputs = Some w' ->
  exists evs, emitted w' = emitted w ++ evs /\ forallb stop_or_awake evs = true.
Proof.
  induction inputs as [|i rest IH]; intros w w' HE HS Hq He; simpl in *.
  - injection He as <-. exists []. split; [symmetry; apply app_nil_r | reflexivity].
  - apply andb_true_iff in Hq. destruct Hq as [Hq1 Hq2].
    apply negb_true_iff in Hq1.
    destruct (step w i) as [w1|] eqn:Hstep; [|discriminate].
    destruct (rest_step i w w1 HE HS Hq1 Hstep) as (HS1 & evs1 & E1' & F1).
    pose proof (loop_ended_step w i w1 HE Hq1 Hstep) as HE1.
    destruct (IH w1 w' HE1 HS1 Hq2 He) as (evs2 & E2 & F2).
    exists (evs1 ++ evs2). split.
    + rewrite E2, E1', app_assoc. reflexivity.
    + rewrite forallb_app, F1, F2. reflexivity.
Qed.

(** [stop()] called between two iterations puts the monitor at rest.  In a
    run where [start()] was only called while no query was outstanding, if
    [stop()] is called while no query is outstanding, then until [start()] is
    called again no query is issued and no event is emitted other than
    'stop' (for a repeated [stop()]) and 'awake' (a 'mousemove' after an idle
    timer fired): no 'check', no window event, no 'idle', no 'error'. *)
Theorem stop_between_iterations_is_final mc ci ia inputs w later w' :
  starts_when_settled (create mc ci ia) inputs = true ->
  exec (create mc ci ia) inputs = Some w ->
  outstanding w = 0%nat ->
  forallb (fun i => negb (is_CallStart i)) later = true ->
  exec (stop w) later = Some w' ->
  outstanding w' = 0%nat /\
  exists evs,
    emitted w' = emitted w ++ EvStop :: evs /\
    forallb stop_or_awake evs = true.
Proof.
  intros Hs He HO Hq Hl.
  pose proof (loop_inv_exec inputs _ w (loop_inv_create mc ci ia) Hs He) as HL.
  assert (HE : loop_ended (stop w)).
  { split; [|now apply stop_run_timers].
    destruct (stop_frame w) as [_ A]. now rewrite A. }
  assert (HS : is_START (currentState (monitor (stop w))) = false)
    by now rewrite stop_monitor.
  split.
  - exact (proj1 (loop_ended_exec later (stop w) w' HE Hq Hl)).
  - destruct (rest_exec later (stop w) w' HE HS Hq Hl) as (evs & E & F).
    exists evs. split; [|exact F].
    rewrite E, (proj1 (stop_frame w)), <- app_assoc. reflexivity.
Qed.

(** *** The mouse checker of a monitor started twice *)

Lemma start_mouse w :
  mouseChecker (start w) = MouseChecker.start (mouseChecker w) /\
  mousemoveListener (start w) = mousemoveListener w.
Proof.
  destruct (setDefaults_fields w)
    as (HS & _ & _ & _ & _ & _ & _ & _ & _ & _ & _ & HM & HL).
  unfold start, run. simpl. rewrite HS. simpl. now rewrite HM, HL.
Qed.

Lemma stop_mouse w :
  mouseChecker (stop w) = MouseChecker.stop (mouseChecker w) /\
  mousemoveListener (stop w) = mousemoveListener w.
Proof.
  unfold stop. simpl.
  destruct (checkTimeout (monitor w)); simpl;
    destruct (idleTimeout (monitor w)); split; reflexivity.
Qed.

Lemma double_start_stop_mouse w :
  mouseChecker (stop (start (start w))) =
    MouseChecker.stop (MouseChecker.start (MouseChecker.start (mouseChecker w))) /\
  mousemoveListener (stop (start (start w))) = mousemoveListener w /\
  currentState (monitor (stop (start (start w)))) = Some STOP.
Proof.
  split; [|split].
  - rewrite (proj1 (stop_mouse (start (start w)))).
    rewrite (proj1 (start_mouse (start w))).
    rewrite (proj1 (start_mouse w)). reflexivity.
  - rewrite (proj2 (stop_mouse (start (start w)))).
    rewrite (proj2 (start_mouse (start w))).
    exact (proj2 (start_mouse w)).
  - rewrite (stop_monitor (start (start w))). reflexivity.
Qed.

Lemma double_start_stop_sampling (m : MouseChecker.t) :
  MouseChecker.sampling
    (MouseChecker.stop (MouseChecker.start (MouseChecker.start m))) = true.
Proof.
  unfold MouseChecker.sampling.
  assert (I : In (MouseChecker.nextInterval m)
                (MouseChecker.intervals
                   (MouseChecker.stop (MouseChecker.start (MouseChecker.start m))))).
  { unfold MouseChecker.stop, MouseChecker.start. simpl.
    apply filter_In. split.
    - apply in_or_app. left. apply in_or_app. right. now left.
    - apply negb_true_iff, Nat.eqb_neq. lia. }
  destruct (MouseChecker.intervals _); [contradiction | reflexivity].
Qed.

Lemma first_tick_emits mousePos (m : MouseChecker.t) :
  MouseChecker.lastMousePos m = None ->
  snd (MouseChecker.tick mousePos m) = true.
Proof. intro H. unfold MouseChecker.tick. now rewrite H. Qed.

Lemma sample_step ws mousePos :
  MouseChecker.sampling (mouseChecker ws) = true ->
  snd (MouseChecker.tick mousePos (mouseChecker ws)) = true ->
  mousemoveListener ws = true ->
  exists w1,
    step ws (MouseSample mousePos) = Some (awakeUser w1) /\
    monitor w1 = monitor ws.
Proof.
  intros HSa HT HL. unfold step. rewrite HSa.
  destruct (MouseChecker.tick mousePos (mouseChecker ws)) as [mc moved].
  simpl in HT. subst moved.
  exists (with_mouseChecker (fun _ => mc) ws). split; [|reflexivity].
  unfold deliver_mousemove.
  change (mousemoveListener (with_mouseChecker (fun _ => mc) ws))
    with (mousemoveListener ws).
  now rewrite HL.
Qed.

(** [start()] called twice and then [stop()]: the monitor is stopped but
    its mouse checker still samples, and a sample that reports a move still
    reaches [awakeUser], which opens the gate of the stopped monitor. *)
Theorem stopped_monitor_still_sampled w mousePos :
  mousemoveListener w = true ->
  MouseChecker.lastMousePos (mouseChecker w) = None ->
  exists w',
    step (stop (start (start w))) (MouseSample mousePos) = Some w' /\
    currentState (monitor w') = Some STOP /\
    isUserAwake (monitor w') = Some true.
Proof.
  intros HL HP.
  destruct (double_start_stop_mouse w) as (HM & HLs & HSt).
  assert (HSa : MouseChecker.sampling (mouseChecker (stop (start (start w)))) = true)
    by (rewrite HM; apply double_start_stop_sampling).
  assert (HT : snd (MouseChecker.tick mousePos
                      (mouseChecker (stop (start (start w))))) = true).
  { rewrite HM. apply first_tick_emits. exact HP. }
  rewrite HL in HLs.
  destruct (sample_step _ mousePos HSa HT HLs) as (w1 & S1 & M1).
  exists (awakeUser w1). split; [exact S1|].
  destruct (awakeUser_frame w1) as (_ & _ & A & _).
  rewrite A, M1. split; [exact HSt | apply awakeUser_gate].
Qed.

End MonitorFurther.

(** ** The monitor, continued *)

Section MonitorLifecycle.

Context {Err : Type} {RV : RejectionValue Err}.

Implicit Types (w : World Err).

(** *** Restart *)

(** After [start()] the window in focus is reported afresh, whatever was
    reported before: [start()], a 'mousemove', and the resolution of a query
    with any window whose id is not -1 emit 'start', 'check',
    'windoworurlchange' and 'windowchange', in that order, from every state
    in which [awakeUser] is subscribed. *)
Theorem window_reported_again_after_restart w win :
  mousemoveListener w = true ->
  ActiveWindow.id win <> -1 ->
  exists w3,
    exec w [CallStart; MouseMove; QueryResolves (Some win)] = Some w3 /\
    emitted w3 =
      emitted w ++
      [EvStart; EvCheck; EvWindowOrUrlChange win; EvWindowChange win] /\
    lastWindow (monitor w3) = Some win.
Proof.
  intros HL Hid.
  destruct (start_counters w) as (HO & _ & _).
  destruct (start_mouse w) as (_ & HL1). rewrite HL in HL1.
  assert (HM : monitor (start w) = monitor (setDefaults w)) by apply start_monitor.
  destruct (setDefaults_fields w) as (_ & HG & HW & _).
  assert (HE : emitted (start w) = emitted w ++ [EvStart]).
  { unfold start. cbv zeta.
    change (emitted (run (with_mouseChecker MouseChecker.start (setDefaults w)))
              ++ [EvStart] = emitted w ++ [EvStart]).
    assert (E : emitted (run (with_mouseChecker MouseChecker.start (setDefaults w)))
                = emitted (setDefaults w))
      by (unfold run; destruct (is_START _); reflexivity).
    rewrite E.
    now destruct (setDefaults_fields w) as (_ & _ & _ & _ & _ & _ & _ & _ & E' & _);
      rewrite E'. }
  set (w1 := start w) in *.
  destruct (awakeUser_frame w1) as (_ & B2 & _ & B4 & _ & B6).
  rewrite HM, HG in B6. rewrite HM, HW in B2. rewrite HO in B4.
  rewrite app_nil_r in B6.
  set (w2 := awakeUser w1) in *.
  assert (G2 : isUserAwake (monitor (set_outstanding (outstanding w) w2)) = Some true)
    by apply awakeUser_gate.
  assert (L2 : lastWindow (monitor (set_outstanding (outstanding w) w2))
               = Some sentinel) by exact B2.
  destruct (report_against_sentinel win _ G2 L2 Hid) as [R1 R2].
  exists (check_then (Some win) (set_outstanding (outstanding w) w2)).
  split; [|split; [|exact R2]].
  - unfold exec.
    change (step w CallStart) with (Some w1). cbv iota beta.
    assert (S2 : step w1 MouseMove = Some w2).
    { simpl. unfold deliver_mousemove. now rewrite HL1. }
    rewrite S2. unfold step. rewrite B4. reflexivity.
  - rewrite R1.
    change (emitted (set_outstanding (outstanding w) w2)) with (emitted w2).
    rewrite B6, HE, <- app_assoc. reflexivity.
Qed.

(** *** After [destroy()] *)

Lemma timers_kept_settlement_no_listener w :
  onceCheck w = 0%nat ->
  (forall r, exists f, run_timers (check_then r w) = filter f (run_timers w)) /\
  (forall e, exists f, run_timers (check_catch e w) = filter f (run_timers w)).
Proof.
  intro H0.
  assert (K : timers_kept w (emit_check w)).
  { rewrite (emit_check_no_listener w H0). apply timers_kept_same; reflexivity. }
  assert (C : forall e w1, onceCheck w1 = 0%nat -> timers_kept w1 (check_catch e w1)).
  { intros e w1 H1. unfold check_catch. cbv zeta.
    assert (H2 : onceCheck (setDefaults w1) = 0%nat).
    { now destruct (setDefaults_fields w1)
        as (_ & _ & _ & _ & _ & _ & _ & _ & _ & _ & E & _); rewrite E. }
    assert (K1 : timers_kept w1 (emit_check (setDefaults w1))).
    { apply (timers_kept_trans _ (setDefaults w1)); [apply timers_kept_setDefaults|].
      rewrite (emit_check_no_listener _ H2). apply timers_kept_same; reflexivity. }
    destruct (serial_differs _ _); [|exact K1].
    apply (timers_kept_trans _ _ _ K1). apply timers_kept_same; reflexivity. }
  assert (R : forall w', timers_kept w w' ->
                exists f, run_timers w' = filter f (run_timers w)).
  { intros w' ([f Hf] & _). exists f. unfold run_timers. rewrite Hf.
    apply filter_swap. }
  split.
  - intro r. apply R.
    destruct (isUserAwake (monitor w)) as [[|]|] eqn:G;
      try (rewrite check_then_closed by (rewrite G; discriminate); exact K).
    destruct r as [win|].
    + destruct (lastWindow (monitor w)) as [lw|] eqn:L.
      * rewrite (check_then_window win lw w G L).
        apply (timers_kept_trans _ _ _ K).
        destruct (activeWindowOrUrlChanged win lw);
          [destruct (activeWindowChanged win lw)|];
          apply timers_kept_same; reflexivity.
      * rewrite (check_then_undefined win w G L).
        apply (timers_kept_trans _ _ _ K).
        apply (timers_kept_trans _ (this (set_isUserAwake None) (emit_check w)));
          [apply timers_kept_same; reflexivity|].
        apply C. simpl. apply emit_check_onceCheck.
    + rewrite (check_then_inactive w G).
      apply (timers_kept_trans _ _ _ K). apply timers_kept_same; reflexivity.
  - intro e. apply R. now apply C.
Qed.

(** [destroy()] called while the query of a running loop is outstanding
    ends the loop for good.  In a run where [start()] was only called while
    no query was outstanding, if [destroy()] is called while a query is
    outstanding, then once that query has settled (resolved or rejected) no
    query is outstanding, no check timer is pending, and no query is issued
    again until [start()] is called. *)
Theorem destroy_with_query_outstanding_is_final
        mc ci ia inputs w i w1 later w' :
  starts_when_settled (create mc ci ia) inputs = true ->
  exec (create mc ci ia) inputs = Some w ->
  (0 < outstanding w)%nat ->
  is_settlement i = true ->
  step (destroy w) i = Some w1 ->
  forallb (fun i => negb (is_CallStart i)) later = true ->
  exec w1 later = Some w' ->
  loop_ended w1 /\ outstanding w' = 0%nat.
Proof.
  intros Hs He HO Hi Hstep Hq Hl.
  pose proof (loop_inv_exec inputs _ w (loop_inv_create mc ci ia) Hs He)
    as (H1 & _ & _).
  assert (HR : run_timers w = [])
    by (destruct (run_timers w); [reflexivity | simpl in H1; lia]).
  assert (HO1 : outstanding w = 1%nat) by lia.
  assert (HE : loop_ended w1).
  { destruct (timers_kept_settlement_no_listener
                (set_outstanding 0%nat (destroy w)) eq_refl) as [A B].
    destruct i; try discriminate Hi; simpl in Hstep; rewrite HO1 in Hstep;
      injection Hstep as <-; split.
    - now destruct (check_then_counters activeWinResult
                      (set_outstanding 0%nat (destroy w))) as [_ ->].
    - destruct (A activeWinResult) as [f Hf]. rewrite Hf.
      change (run_timers (set_outstanding 0%nat (destroy w))) with (run_timers w).
      now rewrite HR.
    - now destruct (check_catch_counters error
                      (set_outstanding 0%nat (destroy w))) as [_ ->].
    - destruct (B error) as [f Hf]. rewrite Hf.
      change (run_timers (set_outstanding 0%nat (destroy w))) with (run_timers w).
      now rewrite HR. }
  split; [exact HE|].
  exact (proj1 (loop_ended_exec later w1 w' HE Hq Hl)).
Qed.

(** *** No activity signal reaches a destroyed monitor *)

Lemma listener_step i w w' :
  mousemoveListener w = false -> step w i = Some w' ->
  mousemoveListener w' = false.
Proof.
  intros HL Hstep.
  assert (LC : forall e w1, mousemoveListener (check_catch e w1) = mousemoveListener w1).
  { intros e w1. unfold check_catch. cbv zeta.
    assert (E : mousemoveListener (emit_check (setDefaults w1)) = mousemoveListener w1).
    { unfold emit_check. rewrite (proj2 (call_listeners_mouse _ _)).
      now destruct (setDefaults_fields w1)
        as (_ & _ & _ & _ & _ & _ & _ & _ & _ & _ & _ & _ & E'). }
    destruct (serial_differs _ _); exact E. }
  assert (LE : forall w1, mousemoveListener (emit_check w1) = mousemoveListener w1).
  { intro w1. unfold emit_check. now rewrite (proj2 (call_listeners_mouse _ _)). }
  destruct i; simpl in Hstep.
  - injection Hstep as <-. now rewrite (proj2 (start_mouse w)).
  - injection Hstep as <-. now rewrite (proj2 (stop_mouse w)).
  - injection Hstep as <-. reflexivity.
  - injection Hstep as <-. unfold deliver_mousemove. now rewrite HL.
  - destruct (MouseChecker.sampling _); [|discriminate].
    destruct (MouseChecker.tick mousePos (mouseChecker w)) as [mc moved].
    injection Hstep as <-. destruct moved; [|exact HL].
    unfold deliver_mousemove. simpl mousemoveListener. now rewrite HL.
  - destruct (find (has_handle h) (timers w)) as [t|]; [|discriminate].
    injection Hstep as <-. destruct (callback t); unfold call.
    + unfold run. destruct (is_START _); exact HL.
    + unfold idleUser. cbv zeta. destruct (is_START _); exact HL.
  - destruct (outstanding w) as [|n]; [discriminate|]. injection Hstep as <-.
    set (w1 := set_outstanding n w).
    assert (HL1 : mousemoveListener w1 = false) by exact HL.
    destruct (isUserAwake (monitor w1)) as [[|]|] eqn:G;
      try (rewrite check_then_closed by (rewrite G; discriminate);
           now rewrite LE).
    destruct activeWinResult as [win|].
    + destruct (lastWindow (monitor w1)) as [lw|] eqn:L.
      * rewrite (check_then_window win lw w1 G L).
        destruct (activeWindowOrUrlChanged win lw);
          [destruct (activeWindowChanged win lw)|];
          simpl; now rewrite LE.
      * rewrite (check_then_undefined win w1 G L). rewrite LC. simpl.
        now rewrite LE.
    + rewrite (check_then_inactive w1 G). simpl. now rewrite LE.
  - destruct (outstanding w) as [|n]; [discriminate|]. injection Hstep as <-.
    now rewrite LC.
Qed.

Lemma deaf_gate_step i w w' :
  mousemoveListener w = false ->
  isUserAwake (monitor w) <> Some true ->
  step w i = Some w' ->
  isUserAwake (monitor w') <> Some true.
Proof.
  intros HL HG Hstep.
  destruct (is_mouse i) eqn:Hm.
  - destruct i; try discriminate Hm; simpl in Hstep.
    + injection Hstep as <-. unfold deliver_mousemove. now rewrite HL.
    + destruct (MouseChecker.sampling _); [|discriminate].
      destruct (MouseChecker.tick mousePos (mouseChecker w)) as [mc moved].
      injection Hstep as <-. destruct moved; [|exact HG].
      unfold deliver_mousemove. simpl mousemoveListener. now rewrite HL.
  - exact (gate_stays_closed i w w' HG Hm Hstep).
Qed.

Lemma deaf_exec inputs : forall w w',
  mousemoveListener w = false ->
  isUserAwake (monitor w) <> Some true ->
  exec w inputs = Some w' ->
  mousemoveListener w' = false /\ isUserAwake (monitor w') <> Some true.
Proof.
  induction inputs as [|i rest IH]; intros w w' HL HG He; simpl in *.
  - injection He as <-. now split.
  - destruct (step w i) as [w1|] eqn:Hstep; [|discriminate].
    apply (IH w1 w');
      [now apply (listener_step i w) | now apply (deaf_gate_step i w) | exact He].
Qed.

(** [destroy()] is not undone by [start()]: the constructor alone
    subscribes [awakeUser].  Once a monitor whose gate is not Awake has been
    destroyed, whatever follows (further calls of [start()] and [stop()],
    'mousemove' notifications, timers, settlements), every resolving query
    emits 'check' and nothing else: no window is ever reported again. *)
Theorem destroyed_monitor_reports_nothing w inputs w2 r w3 :
  isUserAwake (monitor w) <> Some true ->
  exec (destroy w) inputs = Some w2 ->
  step w2 (QueryResolves r) = Some w3 ->
  emitted w3 = emitted w2 ++ [EvCheck].
Proof.
  intros HG He Hstep.
  destruct (deaf_exec inputs (destroy w) w2 eq_refl HG He) as [_ G2].
  simpl in Hstep. destruct (outstanding w2) as [|n]; [discriminate|].
  injection Hstep as <-.
  rewrite check_then_closed by exact G2.
  now rewrite emit_check_emitted.
Qed.

End MonitorLifecycle.

(** ** C7: the activity signal *)

Section ActivitySignal.

Context {Err : Type} {RV : RejectionValue Err}.

Implicit Types (w : World Err).









End ActivitySignal.

(** ** The further properties at concrete inputs *)

Lemma MouseChecker_stop_undoes_start_witness :
  sampler_wf MouseChecker.create /\
  MouseChecker.intervals
    (MouseChecker.stop (MouseChecker.start MouseChecker.create)) = [].
Proof.
  assert (H : sampler_wf MouseChecker.create) by constructor.
  split; [exact H|].
  exact (proj1 (MouseChecker_stop_undoes_start MouseChecker.create H)).
Defined.

Lemma MouseChecker_axis_moves_never_reported_witness :
  MouseChecker.lastMousePos sampled_at_origin = Some origin /\
  ticks line_positions sampled_at_origin = (sampled_at_origin, 0%nat).
Proof.
  split; [reflexivity|].
  apply (MouseChecker_axis_moves_never_reported line_positions sampled_at_origin origin).
  - reflexivity.
  - constructor; [right; reflexivity|].
    constructor; [left; reflexivity|].
    constructor; [right; reflexivity|]. constructor.
Defined.

Lemma no_report_without_new_activity_witness :
  exists w3,
    step reported_next (QueryResolves (Some (window 2 None))) = Some w3 /\
    emitted w3 = emitted reported_next ++ [EvCheck].
Proof.
  eexists. split; [vm_compute; reflexivity|].
  apply (no_report_without_new_activity
           (QueryResolves (Some winA)) started_awake reported
           [TimerFires 1%nat] reported_next (Some (window 2 None)));
    vm_compute; reflexivity.
Defined.

Lemma first_window_after_reset_witness :
  ActiveWindow.id winA <> -1 /\
  exists w',
    step started_awake (QueryResolves (Some winA)) = Some w' /\
    emitted w' =
      emitted started_awake ++ [EvCheck; EvWindowOrUrlChange winA; EvWindowChange winA].
Proof.
  assert (Hid : ActiveWindow.id winA <> -1) by (intro H; discriminate H).
  split; [exact Hid|].
  destruct (first_window_after_reset started_awake 0%nat winA eq_refl eq_refl eq_refl)
    as (w' & S1 & A & _).
  exists w'. split; [exact S1 | exact (proj1 (A Hid))].
Defined.

Lemma same_window_reported_once_witness :
  exists w3,
    step reported_next_awake (QueryResolves (Some winA_retitled)) = Some w3 /\
    emitted w3 = emitted reported_next_awake ++ [EvCheck].
Proof.
  eexists. split; [vm_compute; reflexivity|].
  apply (same_window_reported_once started_awake 0%nat winA sentinel reported
           reported_next_awake winA_retitled);
    vm_compute; reflexivity.
Defined.

Lemma repeated_rejection_reported_once_witness :
  exists w3,
    step rejected_next (QueryRejects E1) = Some w3 /\
    emitted w3 = emitted rejected_next ++ [EvCheck].
Proof.
  eexists. split; [vm_compute; reflexivity|].
  apply (repeated_rejection_reported_once started E1 rejected
           [TimerFires 0%nat] rejected_next);
    vm_compute; reflexivity.
Defined.

Lemma idle_timer_then_mousemove_witness :
  find (has_handle 0) (timers reported) = Some (idle_timer 0) /\
  exists w1 w2,
    step reported (TimerFires 0%nat) = Some w1 /\
    emitted w1 = emitted reported ++ [EvIdle] /\
    step w1 MouseMove = Some w2 /\
    emitted w2 = emitted w1 ++ [EvAwake].
Proof.
  split; [reflexivity|].
  destruct (idle_timer_then_mousemove reported 0%nat (idle_timer 0)
              eq_refl eq_refl eq_refl)
    as (w1 & w2 & S1 & E1' & _ & _ & S2 & E2 & _).
  exists w1, w2. repeat split; assumption.
Defined.

Lemma window_reported_again_after_idle_witness :
  outstanding started_awake = 1%nat /\
  exists w3,
    exec started_awake [TimerFires 0%nat; MouseMove; QueryResolves (Some winA)]
      = Some w3 /\
    lastWindow (monitor w3) = Some winA.
Proof.
  split; [reflexivity|].
  assert (Hid : ActiveWindow.id winA <> -1) by (intro H; discriminate H).
  destruct (window_reported_again_after_idle started_awake 0%nat 0%nat
              (idle_timer 0) winA eq_refl eq_refl eq_refl eq_refl Hid)
    as (w3 & S3 & _ & L3).
  exists w3. split; assumption.
Defined.

Lemma lastWindow_defined_when_read_witness :
  exec monitor0 [CallStart] = Some started /\
  exists lw, lastWindow (monitor started) = Some lw.
Proof.
  assert (H : exec monitor0 [CallStart] = Some started) by (vm_compute; reflexivity).
  split; [exact H|].
  apply (lastWindow_defined_when_read MouseChecker.create 100 1000
           [CallStart] started H).
  left. vm_compute. apply le_n.
Defined.

Lemma resolution_emits_in_order_witness :
  exists w' evs,
    step started_awake (QueryResolves (Some winA)) = Some w' /\
    emitted w' = emitted started_awake ++ EvCheck :: evs /\
    resolution_events (Some winA) evs.
Proof.
  assert (H : exec monitor0 [CallStart; MouseMove] = Some started_awake)
    by (vm_compute; reflexivity).
  exists reported.
  assert (S1 : step started_awake (QueryResolves (Some winA)) = Some reported)
    by (vm_compute; reflexivity).
  destruct (resolution_emits_in_order MouseChecker.create 100 1000
              [CallStart; MouseMove] started_awake (Some winA) reported H S1)
    as (evs & E & R).
  exists evs. repeat split; assumption.
Defined.

Lemma at_most_one_idle_timer_witness :
  exec monitor0 [CallStart; MouseMove; QueryResolves (Some winA)] = Some reported /\
  (List.length (idle_timers reported) <= 1)%nat /\
  idle_timers (stop reported) = [].
Proof.
  assert (H : exec monitor0 [CallStart; MouseMove; QueryResolves (Some winA)]
              = Some reported) by (vm_compute; reflexivity).
  split; [exact H|].
  destruct (at_most_one_idle_timer MouseChecker.create 100 1000 _ reported H)
    as (A & _ & C).
  split; assumption.
Defined.

Lemma running_loop_stays_alive_witness :
  exec monitor0 disciplined_run = Some disciplined_end /\
  currentState (monitor disciplined_end) = Some START /\
  ((outstanding disciplined_end = 1%nat /\ onceCheck disciplined_end = 1%nat /\
    run_timers disciplined_end = []) \/
   (outstanding disciplined_end = 0%nat /\
    exists t,
      run_timers disciplined_end = [t] /\
      checkTimeout (monitor disciplined_end) = Some (handle t) /\
      exists w',
        step disciplined_end (TimerFires (handle t)) = Some w' /\
        outstanding w' = 1%nat /\ onceCheck w' = 1%nat)).
Proof.
  assert (H : exec monitor0 disciplined_run = Some disciplined_end)
    by (vm_compute; reflexivity).
  split; [exact H|]. split; [reflexivity|].
  apply (running_loop_stays_alive MouseChecker.create 100 1000 disciplined_run
           disciplined_end); [vm_compute; reflexivity | vm_compute; reflexivity
                             | exact H | reflexivity].
Defined.

Lemma stop_between_iterations_is_final_witness :
  outstanding between_checks = 0%nat /\
  exists w',
    exec (stop between_checks) after_stop_inputs = Some w' /\
    outstanding w' = 0%nat /\
    exists evs,
      emitted w' = emitted between_checks ++ EvStop :: evs /\
      forallb stop_or_awake evs = true.
Proof.
  split; [reflexivity|].
  eexists. split; [vm_compute; reflexivity|].
  apply (stop_between_iterations_is_final MouseChecker.create 100 1000
           [CallStart; QueryResolves None] between_checks after_stop_inputs);
    vm_compute; reflexivity.
Defined.

Lemma stopped_monitor_still_sampled_witness :
  mousemoveListener monitor0 = true /\
  exists w',
    step (stop (start (start monitor0))) (MouseSample origin) = Some w' /\
    currentState (monitor w') = Some STOP /\
    isUserAwake (monitor w') = Some true.
Proof.
  split; [reflexivity|].
  exact (stopped_monitor_still_sampled monitor0 origin eq_refl eq_refl).
Defined.

Lemma settlement_after_stop_witness :
  outstanding started = 1%nat /\
  exists w',
    step (stop started) (QueryRejects E1) = Some w' /\
    currentState (monitor w') = Some START.
Proof.
  split; [reflexivity|].
  destruct (proj2 (settlement_after_stop started 0%nat eq_refl) E1)
    as (w' & S1 & St & _).
  exists w'. split; assumption.
Defined.

Lemma window_reported_again_after_restart_witness :
  mousemoveListener reported = true /\
  ActiveWindow.id winA <> -1 /\
  exists w3,
    exec reported [CallStart; MouseMove; QueryResolves (Some winA)] = Some w3 /\
    emitted w3 =
      emitted reported ++
      [EvStart; EvCheck; EvWindowOrUrlChange winA; EvWindowChange winA].
Proof.
  assert (Hid : ActiveWindow.id winA <> -1) by (intro H; discriminate H).
  split; [reflexivity|]. split; [exact Hid|].
  destruct (window_reported_again_after_restart reported winA eq_refl Hid)
    as (w3 & S3 & E3 & _).
  exists w3. split; assumption.
Defined.

Lemma destroy_with_query_outstanding_is_final_witness :
  exists w1 w',
    step (destroy started) (QueryResolves (Some winA)) = Some w1 /\
    exec w1 destroyed_midflight_inputs = Some w' /\
    loop_ended w1 /\ outstanding w' = 0%nat.
Proof.
  eexists. eexists.
  split; [vm_compute; reflexivity|]. split; [vm_compute; reflexivity|].
  apply (destroy_with_query_outstanding_is_final MouseChecker.create 100 1000
           [CallStart] started (QueryResolves (Some winA)) _
           destroyed_midflight_inputs);
    vm_compute; reflexivity.
Defined.

Lemma destroyed_monitor_reports_nothing_witness :
  isUserAwake (monitor started) <> Some true /\
  exists w2 w3,
    exec (destroy started) after_destroy_inputs = Some w2 /\
    step w2 (QueryResolves (Some winA)) = Some w3 /\
    emitted w3 = emitted w2 ++ [EvCheck].
Proof.
  assert (HG : isUserAwake (monitor started) <> Some true)
    by (intro H; discriminate H).
  split; [exact HG|].
  eexists. eexists.
  split; [vm_compute; reflexivity|]. split; [vm_compute; reflexivity|].
  apply (destroyed_monitor_reports_nothing started after_destroy_inputs _
           (Some winA) _ HG); vm_compute; reflexivity.
Defined.


